(** * dataProcess.py: the cleaning pipeline of the ASSISTments log

    A shallow embedding of [src/dataProcess.py].  The program is a chain of
    pandas transformations over one [DataFrame]; every function of the
    source has a definition of the same name below, built from a small
    model of the pandas primitives it calls ([drop_duplicates], [dropna],
    [fillna], [astype], [to_numeric], [replace], [isin], [sort_values],
    [groupby], [is_monotonic_increasing], column selection).

    Modelling conventions.
    - A dataframe is its ordered list of column names and its ordered list
      of rows; a row maps a column name to a cell.
    - A cell is a Python integer, a float, a string, or the missing value
      NaN.  Floats are modelled by exact rationals: no rounding, no
      infinities.  The dtype of a column is not tracked, only the value of
      each cell (an int64 column that pandas upcasts to float64 keeps the
      same numbers), and an operation pandas applies to a whole column
      is applied cell by cell.
    - A call that raises (KeyError, TypeError, ValueError, OverflowError)
      is [None]; the comment at each [None] names the exception.  The
      cast of a float outside the int64 range does not raise: numpy
      stores INT64_MIN (the result on x86-64).  A Python integer outside
      that range raises OverflowError when it is cast.
    - Two numbers are compared by their exact values.  numpy compares an
      int64 column with a float64 column after converting the integers to
      float64, which gives the same answer for integers of magnitude at
      most 2^53; the properties that depend on a comparison of an integer
      with a float say so in a hypothesis.
    - What pandas does with the text of a string (parsing a number out of
      it, printing a float) is not part of the repository: it is the
      interface [PandasText], a parameter of the whole development. *)

From Stdlib Require Import ZArith QArith Qround String Ascii List Lia.
From Stdlib Require Import OrdersEx DecimalString Sorted.
From stdpp Require Import base option list gmap strings pretty sorting.

Local Open Scope string_scope.
Local Open Scope Z_scope.

(** ** Cells *)

Inductive value :=
  | VInt (z : Z)
  | VFloat (q : Q)
  | VStr (s : string)
  | VNaN.

#[global] Instance value_inhabited : Inhabited value := populate VNaN.

(** The text-level behaviour of pandas, Python and numpy that the source
    relies on but does not define. *)
Class PandasText := {
  (** [pd.to_numeric] on one string: the number read, or [None] where
      [errors='coerce'] yields NaN *)
  parse_numeric : string → option (Z + Q);
  (** Python's [int(s)]: [None] where it raises ValueError *)
  int_of_str : string → option Z;
  (** [str(x)] of a float *)
  repr_float : Q → string
}.

Definition isna (v : value) : bool :=
  match v with VNaN => true | _ => false end.

(** The number held by a numeric cell. *)
Definition to_Q (v : value) : option Q :=
  match v with
  | VInt z => Some (inject_Z z)
  | VFloat q => Some q
  | _ => None
  end.

Definition is_numeric (v : value) : bool :=
  match v with VInt _ | VFloat _ => true | _ => false end.

Definition is_str (v : value) : bool :=
  match v with VStr _ => true | _ => false end.

(** The number a cell is compared as (only consulted on numeric cells). *)
Definition num (v : value) : Q := default 0%Q (to_Q v).

(** Order used by [sort_values] and equality used by [drop_duplicates] and
    [groupby]: numbers by value (so that [1 == 1.0]), strings by code
    point, NaN equal to NaN and after everything else
    ([na_position='last']).  In a column that mixes strings and numbers
    the numbers come before the strings: a sort on several keys orders
    each key column through its sorted categories, which are built that
    way. *)
Definition value_cmp (a b : value) : comparison :=
  match a, b with
  | VNaN, VNaN => Eq
  | VNaN, _ => Gt
  | _, VNaN => Lt
  | VStr s, VStr t => String.compare s t
  | VStr _, _ => Gt
  | _, VStr _ => Lt
  | _, _ => Qcompare (num a) (num b)
  end.

Definition value_eqb (a b : value) : bool :=
  match value_cmp a b with Eq => true | _ => false end.

Definition is_Gt (c : comparison) : bool :=
  match c with Gt => true | _ => false end.

(** [a > b] between two cells of two Series: False on a missing cell (as
    pandas answers between two object columns), TypeError between text
    and a number. *)
Definition value_gt (a b : value) : option bool :=
  match a, b with
  | VNaN, _ | _, VNaN => Some false
  | VStr _, VStr _ => Some (is_Gt (value_cmp a b))
  | VStr _, _ | _, VStr _ => None (* TypeError: '>' between str and int *)
  | _, _ => Some (is_Gt (value_cmp a b))
  end.

(** [Series.fillna(d)] on one cell. *)
Definition fillna (d : value) (v : value) : value :=
  if isna v then d else v.

Definition INT64_MIN : Z := - 2 ^ 63.
Definition INT64_MAX : Z := 2 ^ 63 - 1.

Definition int64 (z : Z) : option Z :=
  if (INT64_MIN <=? z) && (z <=? INT64_MAX) then Some z else None (* OverflowError *).

(** Truncation toward zero, as [int(x)] and numpy's float-to-int cast. *)
Definition Qtrunc (q : Q) : Z := Z.quot (Qnum q) (Z.pos (Qden q)).

(** numpy's cast of a float64 to int64: the integer part, and INT64_MIN
    (no exception) when the integer part is outside the int64 range. *)
Definition float_to_int64 (q : Q) : Z :=
  let z := Qtrunc q in
  if (INT64_MIN <=? z) && (z <=? INT64_MAX) then z else INT64_MIN.

Section Text.
Context `{PandasText}.

(** [Series.astype(int)] on one cell. *)
Definition astype_int (v : value) : option Z :=
  match v with
  | VInt z => int64 z
  | VFloat q => Some (float_to_int64 q)
  | VStr s => int_of_str s ≫= int64 (* ValueError: invalid literal for int() *)
  | VNaN => None (* IntCastingNaNError *)
  end.

(** [Series.astype(str)] on one cell. *)
Definition astype_str (v : value) : string :=
  match v with
  | VInt z => pretty z
  | VFloat q => repr_float q
  | VStr s => s
  | VNaN => "nan"
  end.

(** [pd.to_numeric(_, errors='coerce')] on one cell. *)
Definition to_numeric (v : value) : value :=
  match v with
  | VStr s =>
      match parse_numeric s with
      | Some (inl z) => VInt z
      | Some (inr q) => VFloat q
      | None => VNaN
      end
  | _ => v
  end.

End Text.

(** ** Dataframes *)

Record DataFrame := mkDataFrame {
  columns : list string;
  rows : list (gmap string value)
}.

Definition with_rows (df : DataFrame) (rs : list (gmap string value)) : DataFrame :=
  {| columns := columns df; rows := rs |}.

(** [c in df.columns] *)
Definition has_column (c : string) (df : DataFrame) : bool :=
  bool_decide (c ∈ columns df).

(** Reading [df[c]] for each [c] of [cs]: KeyError when one is absent. *)
Definition require (cs : list string) (df : DataFrame) : option unit :=
  if forallb (λ c, has_column c df) cs then Some () else None (* KeyError *).

(** One row of [df[c] = s]: the cell computed from the row is stored
    under [c]. *)
Definition row_set (c : string) (f : gmap string value → option value)
    (r : gmap string value) : option (gmap string value) :=
  v ← f r; Some (<[c := v]> r).

Definition row_update (c : string) (g : value → option value)
    (r : gmap string value) : option (gmap string value) :=
  row_set c (λ r, g (r !!! c)) r.

(** [df[c] = s] where the Series [s] is computed row by row: the column
    is replaced in place, or appended when it is new. *)
Definition setitem (c : string) (f : gmap string value → option value)
    (df : DataFrame) : option DataFrame :=
  rs ← mapM (row_set c f) (rows df);
  Some {| columns := if has_column c df then columns df else columns df ++ [c];
          rows := rs |}.

(** [df[c] = g(df[c])] for an element-wise [g]. *)
Definition update (c : string) (g : value → option value)
    (df : DataFrame) : option DataFrame :=
  require [c] df;; setitem c (λ r, g (r !!! c)) df.

(** Two rows agree on every column of [cols]. *)
Definition row_eqb (cols : list string) (r1 r2 : gmap string value) : bool :=
  forallb (λ c, value_eqb (r1 !!! c) (r2 !!! c)) cols.

(** [DataFrame.drop_duplicates(subset=cols)], [keep='first']: a row stays
    unless an earlier row agrees with it on [cols]. *)
Fixpoint drop_duplicates_rows (cols : list string)
    (l : list (gmap string value)) : list (gmap string value) :=
  match l with
  | [] => []
  | r :: l' =>
      r :: List.filter (λ r', negb (row_eqb cols r r')) (drop_duplicates_rows cols l')
  end.

Definition drop_duplicates (df : DataFrame) : DataFrame :=
  with_rows df (drop_duplicates_rows (columns df) (rows df)).

(** [DataFrame.dropna(subset=cs)] *)
Definition notna_all (cs : list string) (r : gmap string value) : bool :=
  forallb (λ c, negb (isna (r !!! c))) cs.

Definition dropna (cs : list string) (df : DataFrame) : option DataFrame :=
  require cs df;;
  Some (with_rows df (List.filter (notna_all cs) (rows df))).

(** [Series.isin([0, 1])] on one cell *)
Definition isin01 (v : value) : bool :=
  value_eqb v (VInt 0) || value_eqb v (VInt 1).

(** Python truth value of a cell ([nan] is true, the empty string false). *)
Definition truthy (v : value) : bool :=
  match v with
  | VInt z => negb (z =? 0)
  | VFloat q => negb (Qeq_bool q 0)
  | VStr s => negb (String.eqb s "")
  | VNaN => true
  end.

(** [Series.replace(0, 1)] on one cell *)
Definition replace01 (v : value) : value :=
  if value_eqb v (VInt 0) then VInt 1 else v.

(** [a / b] between two cells: NaN where either is missing. *)
Definition value_div (a b : value) : option value :=
  match a, b with
  | VNaN, _ | _, VNaN => Some VNaN
  | VStr _, _ | _, VStr _ => None (* TypeError: unsupported operand for / *)
  | _, _ => Some (VFloat (Qred (num a / num b)))
  end.

(** [1 - a] on one cell *)
Definition value_rsub1 (a : value) : option value :=
  match a with
  | VNaN => Some VNaN
  | VStr _ => None (* TypeError *)
  | _ => Some (VFloat (Qred (1 - num a)))
  end.

(** [sort_values(by)] with several keys: lexicographic on the key columns
    and stable (pandas sorts several keys with a lexsort, whatever
    [kind] says), here an insertion sort that puts a row before the first
    row that is not below it. *)
Fixpoint key_cmp (by_ : list string) (r1 r2 : gmap string value) : comparison :=
  match by_ with
  | [] => Eq
  | c :: cs =>
      match value_cmp (r1 !!! c) (r2 !!! c) with
      | Eq => key_cmp cs r1 r2
      | o => o
      end
  end.

Definition key_leb (by_ : list string) (r1 r2 : gmap string value) : bool :=
  negb (is_Gt (key_cmp by_ r1 r2)).

Fixpoint insert_sorted (by_ : list string) (r : gmap string value)
    (l : list (gmap string value)) : list (gmap string value) :=
  match l with
  | [] => [r]
  | x :: l' => if key_leb by_ r x then r :: l else x :: insert_sorted by_ r l'
  end.

Fixpoint stable_sort (by_ : list string) (l : list (gmap string value))
    : list (gmap string value) :=
  match l with
  | [] => []
  | r :: l' => insert_sorted by_ r (stable_sort by_ l')
  end.

Definition sort_values (by_ : list string) (df : DataFrame) : option DataFrame :=
  require by_ df;;
  Some (with_rows df (stable_sort by_ (rows df))).

(** [groupby(by)]: one group per distinct key, rows with a missing key
    left out ([dropna=True]); each group keeps the order of the frame. *)
Definition groupby (by_ : list string) (l : list (gmap string value))
    : list (list (gmap string value)) :=
  let present := List.filter (notna_all by_) l in
  List.map (λ k, List.filter (row_eqb by_ k) present)
           (drop_duplicates_rows by_ present).

(** [Series.is_monotonic_increasing]: every cell is at most the next one;
    False as soon as a cell is missing, and False as soon as a number
    stands next to a string (the comparison raises TypeError, which
    pandas answers with False). *)
Definition value_le (a b : value) : bool :=
  negb (isna a) && negb (isna b) && Bool.eqb (is_str a) (is_str b)
  && negb (is_Gt (value_cmp a b)).

Fixpoint is_monotonic_increasing (l : list value) : bool :=
  match l with
  | [] => true
  | a :: l' =>
      match l' with
      | [] => negb (isna a)
      | b :: _ => value_le a b && is_monotonic_increasing l'
      end
  end.

(** [df[cols]] with a list of labels: exactly these columns, in this
    order. *)
Definition select_row (cols : list string) (r : gmap string value)
    : gmap string value :=
  filter (λ kv : string * value, kv.1 ∈ cols) r.

Definition select (cols : list string) (df : DataFrame) : option DataFrame :=
  require cols df;;
  Some {| columns := cols; rows := List.map (select_row cols) (rows df) |}.

(** A three-way comparison that orders its carrier as a total preorder. *)
Class WeakOrder {A} (cmp : A → A → comparison) := {
  cmp_antisym a b : cmp b a = CompOpp (cmp a b);
  cmp_eq_l a b c : cmp a b = Eq → cmp a c = cmp b c;
  cmp_lt_trans a b c : cmp a b = Lt → cmp b c = Lt → cmp a c = Lt
}.

(** ** The functions of dataProcess.py *)

Section Pipeline.
Context `{PandasText}.

(** lines 20-26 *)
Definition remove_duplicates (df : DataFrame) : DataFrame :=
  drop_duplicates df.

(** lines 32-39 *)
Definition remove_missing_values (df : DataFrame) (critical_columns : list string)
    : option DataFrame :=
  df_clean ← dropna critical_columns df;
  if has_column "correct" df_clean
  then update "correct" (λ v, VInt <$> astype_int (fillna (VInt 0) v)) df_clean
  else Some df_clean.

(** The two repairs of [fix_logic_errors], on one row. *)
Definition clamp_hint (hint_count hint_total : value) : option value :=
  mask ← value_gt hint_count hint_total;
  Some (if mask : bool then hint_total else hint_count).

Definition clamp_hint_count (r : gmap string value) : option value :=
  clamp_hint (r !!! "hint_count") (r !!! "hint_total").

Definition coerce_correct (v : value) : option value :=
  let mask_invalid := negb (isin01 v) in
  Some (if mask_invalid then (if truthy v then VInt 1 else VInt 0) else v).

(** lines 45-61 *)
Definition fix_logic_errors (df : DataFrame) : option DataFrame :=
  require ["hint_count"; "hint_total"] df;;
  df_clean ← setitem "hint_count" clamp_hint_count df;
  if has_column "correct" df_clean
  then update "correct" coerce_correct df_clean
  else Some df_clean.

Definition clamp_response_time (max_seconds : Z) (v : value) : option value :=
  let v := fillna (VInt 0) (to_numeric v) in
  mask ← value_gt v (VInt max_seconds);
  Some (if mask : bool then VInt max_seconds else v).

(** lines 67-73 *)
Definition normalize_response_time (df : DataFrame) (max_seconds : Z)
    : option DataFrame :=
  if has_column "ms_first_response" df
  then update "ms_first_response" (clamp_response_time max_seconds) df
  else Some df.

Definition independence (hint_count hint_total : value) : option value :=
  ratio ← value_div hint_count (replace01 hint_total);
  value_rsub1 ratio.

Definition hint_independence (r : gmap string value) : option value :=
  independence (r !!! "hint_count") (r !!! "hint_total").

(** lines 79-83 *)
Definition add_hint_independence (df : DataFrame) : option DataFrame :=
  require ["hint_count"; "hint_total"] df;;
  setitem "hint_independence" hint_independence df.

Definition str_cols : list string :=
  ["user_id"; "problem_id"; "template_id"; "skill_id"; "skill_name";
   "teacher_id"; "student_class_id"; "school_id"].

Definition int_cols : list string :=
  ["attempt_count"; "ms_first_response"; "hint_count"; "hint_total"; "correct"].

Definition to_str (v : value) : option value := Some (VStr (astype_str v)).

Definition to_int (v : value) : option value :=
  VInt <$> astype_int (fillna (VInt 0) (to_numeric v)).

(** The body of a [for col in cols] loop that rewrites the frame. *)
Fixpoint for_each (cols : list string) (body : string → DataFrame → option DataFrame)
    (df : DataFrame) : option DataFrame :=
  match cols with
  | [] => Some df
  | col :: cols' => df' ← body col df; for_each cols' body df'
  end.

(** lines 89-103 *)
Definition convert_data_types (df : DataFrame) : option DataFrame :=
  df_clean ← for_each str_cols (λ col, update col to_str) df;
  for_each int_cols
    (λ col d, if has_column col d then update col to_int d else Some d)
    df_clean.

Definition sort_key : list string := ["user_id"; "problem_id"; "ms_first_response"].
Definition group_key : list string := ["user_id"; "problem_id"].

(** lines 109-120; the second component is [issues], the number the
    function prints. *)
Definition check_sequential_order (df : DataFrame) : option (DataFrame * nat) :=
  df_sorted ← sort_values sort_key df;
  let grouped := groupby group_key (rows df_sorted) in
  let issues :=
    length (List.filter
      (λ group, negb (is_monotonic_increasing
                        (List.map (λ r, r !!! "ms_first_response") group)))
      grouped) in
  Some (df_sorted, issues).

Definition critical_columns : list string :=
  ["user_id"; "problem_id"; "template_id"; "skill_id"; "skill_name";
   "teacher_id"; "student_class_id"; "school_id"; "hint_count"; "hint_total"].

Definition keep_cols : list string :=
  ["user_id"; "problem_id"; "template_id"; "skill_id"; "skill_name";
   "teacher_id"; "student_class_id"; "school_id";
   "correct"; "attempt_count"; "ms_first_response";
   "hint_count"; "hint_total"; "hint_independence"].

Definition max_seconds_default : Z := 3600.

(** lines 126-149 *)
Definition process_data (df : DataFrame) : option DataFrame :=
  let df := remove_duplicates df in
  df ← remove_missing_values df critical_columns;
  df ← fix_logic_errors df;
  df ← normalize_response_time df max_seconds_default;
  df ← add_hint_independence df;
  df ← convert_data_types df;
  '(df, _) ← check_sequential_order df;
  select keep_cols df.

(** *** The same stages seen from one row

    Every stage after the two row filters rewrites each row on its own;
    these are the row functions the frame functions above apply. *)

Fixpoint row_for_each (cols : list string) (g : value → option value)
    (r : gmap string value) : option (gmap string value) :=
  match cols with
  | [] => Some r
  | col :: cols' => r' ← row_update col g r; row_for_each cols' g r'
  end.

Definition remove_missing_values_row (r : gmap string value) :=
  row_update "correct" (λ v, VInt <$> astype_int (fillna (VInt 0) v)) r.

Definition fix_logic_errors_row (r : gmap string value) :=
  r' ← row_set "hint_count" clamp_hint_count r;
  row_update "correct" coerce_correct r'.

Definition normalize_response_time_row (max_seconds : Z) (r : gmap string value) :=
  row_update "ms_first_response" (clamp_response_time max_seconds) r.

Definition add_hint_independence_row (r : gmap string value) :=
  row_set "hint_independence" hint_independence r.

Definition convert_data_types_row (r : gmap string value) :=
  r' ← row_for_each str_cols to_str r;
  row_for_each int_cols to_int r'.

Definition process_row (r : gmap string value) : option (gmap string value) :=
  r ← remove_missing_values_row r;
  r ← fix_logic_errors_row r;
  r ← normalize_response_time_row max_seconds_default r;
  r ← add_hint_independence_row r;
  convert_data_types_row r.

(** What [process_row] leaves in each of the output cells, as a function
    of the cells of the input row. *)
Definition correct_cell (correct : value) : option value :=
  v ← VInt <$> astype_int (fillna (VInt 0) correct);
  v ← coerce_correct v;
  to_int v.

Definition ms_first_response_cell (ms : value) : option value :=
  v ← clamp_response_time max_seconds_default ms; to_int v.

Definition hint_count_cell (hint_count hint_total : value) : option value :=
  v ← clamp_hint hint_count hint_total; to_int v.

Definition hint_independence_cell (hint_count hint_total : value) : option value :=
  v ← clamp_hint hint_count hint_total; independence v hint_total.

End Pipeline.

(** A text interface to run the model on: decimal integer literals. *)
Definition decimal_int (s : string) : option Z :=
  Z.of_int <$> NilEmpty.int_of_string s.

Definition decimal_text : PandasText := {|
  parse_numeric s := inl <$> decimal_int s;
  int_of_str := decimal_int;
  repr_float q := pretty (Qnum q) +:+ "/" +:+ pretty (Z.pos (Qden q))
|}.

(** ** Sample frames

    A row with the thirteen input columns, and the frames the properties
    below are run on. *)
Definition row13 (uid pid : string) (correct attempt ms hc ht : value)
    : gmap string value :=
  list_to_map
    [("user_id", VStr uid); ("problem_id", VStr pid); ("template_id", VInt 7);
     ("skill_id", VInt 1); ("skill_name", VStr "Addition"); ("teacher_id", VInt 2);
     ("student_class_id", VInt 3); ("school_id", VInt 4);
     ("correct", correct); ("attempt_count", attempt); ("ms_first_response", ms);
     ("hint_count", hc); ("hint_total", ht)].

Definition cols13 : list string :=
  ["user_id"; "problem_id"; "template_id"; "skill_id"; "skill_name";
   "teacher_id"; "student_class_id"; "school_id";
   "correct"; "attempt_count"; "ms_first_response"; "hint_count"; "hint_total"].

(** Three rows: a hint count above its total, a missing flag with a
    response time that is text, and a fractional flag with a negative
    response time. *)
Definition sample_frame : DataFrame :=
  mkDataFrame cols13
    [row13 "u2" "p1" (VInt 2) (VInt 1) (VInt 10000) (VInt 5) (VInt 3);
     row13 "u1" "p1" VNaN (VInt 1) (VStr "abc") (VInt 2) (VInt 4);
     row13 "u1" "p1" (VFloat (1 # 2)) (VInt 1) (VInt (-5)) (VInt 0) (VInt 0)].

(** One row whose [correct] is the fraction 0.5. *)
Definition half_frame : DataFrame :=
  mkDataFrame cols13
    [row13 "u1" "p1" (VFloat (1 # 2)) (VInt 1) (VInt 10) (VInt 1) (VInt 2)].

(** One row whose [ms_first_response] is negative. *)
Definition negative_frame : DataFrame :=
  mkDataFrame cols13
    [row13 "u1" "p1" (VInt 1) (VInt 1) (VInt (-5)) (VInt 1) (VInt 2)].

(** Two rows that differ only in a [hint_count] above [hint_total]. *)
Definition twins_frame : DataFrame :=
  mkDataFrame cols13
    [row13 "u1" "p1" (VInt 1) (VInt 1) (VInt 10) (VInt 5) (VInt 3);
     row13 "u1" "p1" (VInt 1) (VInt 1) (VInt 10) (VInt 4) (VInt 3)].

Definition twins_output : DataFrame :=
  Eval vm_compute in
    default (mkDataFrame [] []) (process_data (H:=decimal_text) twins_frame).


(** Three attempts, not in the order of the sort key. *)
Definition order_frame : DataFrame :=
  mkDataFrame cols13
    [row13 "u2" "p1" (VInt 1) (VInt 1) (VInt 30) (VInt 1) (VInt 2);
     row13 "u1" "p1" (VInt 1) (VInt 1) (VInt 20) (VInt 1) (VInt 2);
     row13 "u1" "p1" (VInt 1) (VInt 1) (VInt 10) (VInt 1) (VInt 2)].

Definition order_sorted : DataFrame :=
  Eval vm_compute in
    default (mkDataFrame [] [])
      (fst <$> check_sequential_order order_frame).

(** One row whose [hint_count] is text. *)
Definition text_hint_frame : DataFrame :=
  mkDataFrame cols13
    [row13 "u1" "p1" (VInt 1) (VInt 1) (VInt 10) (VStr "abc") (VInt 3)].

(** One row whose [correct] is text. *)
Definition text_correct_frame : DataFrame :=
  mkDataFrame cols13
    [row13 "u1" "p1" (VStr "abc") (VInt 1) (VInt 10) (VInt 1) (VInt 3)].

(** The results of running the model on [sample_frame]. *)
Definition sample_output : DataFrame :=
  Eval vm_compute in
    default (mkDataFrame [] []) (process_data (H:=decimal_text) sample_frame).

Definition sample_normalized : DataFrame :=
  Eval vm_compute in
    default (mkDataFrame [] [])
      (normalize_response_time (H:=decimal_text) sample_frame 3600).

Definition sample_converted : DataFrame :=
  Eval vm_compute in
    default (mkDataFrame [] []) (convert_data_types (H:=decimal_text) sample_frame).

(** ** Vocabulary of the properties *)

(** No two rows agree on all of [cols]: every earlier row differs from
    every later one. *)
Definition distinct_rows (cols : list string) (l : list (gmap string value)) : Prop :=
  StronglySorted (λ r1 r2, row_eqb cols r1 r2 = false) l.

(** Every earlier row is at most every later one on the sort key. *)
Definition key_sorted (by_ : list string) (l : list (gmap string value)) : Prop :=
  StronglySorted (λ r1 r2, key_leb by_ r1 r2 = true) l.



(** What [normalize_response_time] does to the timing cell of one row:
    the cell becomes the number [x] read from it (0 when none can be
    read), or [max_seconds] when [x] exceeds it. *)
Definition response_time_normalized `{PandasText} (max_seconds : Z)
    (r r' : gmap string value) : Prop :=
  let x := fillna (VInt 0) (to_numeric (r !!! "ms_first_response")) in
  is_numeric x = true
  ∧ r' !!! "ms_first_response"
    = (if is_Gt (Qcompare (num x) (inject_Z max_seconds)) then VInt max_seconds else x)
  ∧ (num (r' !!! "ms_first_response") <= inject_Z max_seconds)%Q.

(** The spec's effective hint total: [hint_total], or 1 when it is 0. *)
Definition effective_hint_total (hint_total : value) : Q :=
  if Qeq_bool (num hint_total) 0 then 1%Q else num hint_total.

(** A row whose identifier cells are strings and whose count and flag
    cells, as far as the frame has those columns, are int64 integers. *)
Definition converted_row (cols : list string) (r : gmap string value) : Prop :=
  (∀ c, c ∈ str_cols → ∃ s, r !! c = Some (VStr s))
  ∧ (∀ c, c ∈ int_cols → c ∈ cols →
       ∃ z, r !! c = Some (VInt z) ∧ INT64_MIN ≤ z ≤ INT64_MAX).

(** A row as the pipeline leaves it: only the output columns, strings in
    the identifier cells, int64 integers in the count and flag cells, a
    0/1 flag, a capped response time and some value for the feature. *)
Definition clean_row (r : gmap string value) : Prop :=
  (∀ c, c ∉ keep_cols → r !! c = None)
  ∧ converted_row keep_cols r
  ∧ (r !! "correct" = Some (VInt 0) ∨ r !! "correct" = Some (VInt 1))
  ∧ (∃ z, r !! "ms_first_response" = Some (VInt z) ∧ z ≤ max_seconds_default)
  ∧ is_Some (r !! "hint_independence").




(** ** Vocabulary and sample frames of the stage properties *)

(** The rows [process_data] works on after its two row filters. *)
Definition survivors (df : DataFrame) : list (gmap string value) :=
  List.filter (notna_all critical_columns)
    (drop_duplicates_rows (columns df) (rows df)).

(** The cells of a row that the pipeline must be able to compute. *)
Definition row_accepted `{PandasText} (r : gmap string value) : Prop :=
  is_Some (correct_cell (r !!! "correct"))
  ∧ is_Some (to_int (r !!! "attempt_count"))
  ∧ is_Some (ms_first_response_cell (r !!! "ms_first_response"))
  ∧ is_Some (hint_count_cell (r !!! "hint_count") (r !!! "hint_total"))
  ∧ is_Some (to_int (r !!! "hint_total"))
  ∧ is_Some (hint_independence_cell (r !!! "hint_count") (r !!! "hint_total")).

(** A frame without the timing column, and one whose only row lacks a
    critical cell and holds text elsewhere. *)
Definition no_timing_frame : DataFrame :=
  mkDataFrame
    ["user_id"; "problem_id"; "template_id"; "skill_id"; "skill_name";
     "teacher_id"; "student_class_id"; "school_id";
     "correct"; "attempt_count"; "hint_count"; "hint_total"]
    [delete "ms_first_response"
       (row13 "u1" "p1" (VInt 1) (VInt 1) (VInt 10) (VInt 1) (VInt 2))].

Definition dropped_frame : DataFrame :=
  mkDataFrame cols13
    [row13 "u1" "p1" (VStr "abc") (VStr "x") (VInt 10) VNaN (VStr "many")].

(** A row whose count and flag cells are int64 integers, the flag
    possibly missing. *)
Definition is_int64_cell (v : value) : Prop :=
  ∃ z, v = VInt z ∧ INT64_MIN ≤ z ≤ INT64_MAX.

Definition integer_row (r : gmap string value) : Prop :=
  (r !!! "correct" = VNaN ∨ is_int64_cell (r !!! "correct"))
  ∧ is_int64_cell (r !!! "attempt_count")
  ∧ is_int64_cell (r !!! "ms_first_response")
  ∧ is_int64_cell (r !!! "hint_count")
  ∧ is_int64_cell (r !!! "hint_total").

(** Three attempts of which one has no response time. *)
Definition gap_frame : DataFrame :=
  mkDataFrame cols13
    [row13 "u1" "p1" (VInt 1) (VInt 1) VNaN (VInt 1) (VInt 2);
     row13 "u2" "p1" (VInt 1) (VInt 1) (VInt 5) (VInt 1) (VInt 2);
     row13 "u1" "p1" (VInt 1) (VInt 1) (VInt 10) (VInt 1) (VInt 2)].

Definition gap_sorted : DataFrame :=
  Eval vm_compute in
    default (mkDataFrame [] []) (fst <$> check_sequential_order gap_frame).


(** Two attempts of one user on one problem, the response time of the
    second being text; no cell is missing. *)
Definition mixed_times_frame : DataFrame :=
  mkDataFrame cols13
    [row13 "u1" "p1" (VInt 1) (VInt 1) (VInt 3) (VInt 1) (VInt 2);
     row13 "u1" "p1" (VInt 1) (VInt 1) (VStr "abc") (VInt 1) (VInt 2)].

Definition mixed_times_sorted : DataFrame :=
  Eval vm_compute in
    default (mkDataFrame [] []) (fst <$> check_sequential_order mixed_times_frame).

(** Three attempts, the last two with the same sort key and different
    hint counts, behind an attempt that sorts after them. *)
Definition tie_first : gmap string value :=
  row13 "u1" "p1" (VInt 1) (VInt 1) (VInt 10) (VInt 5) (VInt 9).

Definition tie_second : gmap string value :=
  row13 "u1" "p1" (VInt 1) (VInt 1) (VInt 10) (VInt 4) (VInt 9).

Definition ties_frame : DataFrame :=
  mkDataFrame cols13
    [row13 "u2" "p1" (VInt 1) (VInt 1) (VInt 30) (VInt 1) (VInt 2);
     tie_first; tie_second].

Definition ties_sorted : DataFrame :=
  Eval vm_compute in
    default (mkDataFrame [] []) (fst <$> check_sequential_order ties_frame).

(** The results of running single stages on [sample_frame]. *)
Definition sample_complete : DataFrame :=
  Eval vm_compute in
    default (mkDataFrame [] [])
      (remove_missing_values (H:=decimal_text) sample_frame critical_columns).

Definition sample_repaired : DataFrame :=
  Eval vm_compute in
    default (mkDataFrame [] []) (fix_logic_errors sample_frame).

Definition sample_featured : DataFrame :=
  Eval vm_compute in
    default (mkDataFrame [] []) (add_hint_independence sample_frame).

Definition sample_output_first : gmap string value :=
  Eval vm_compute in default ∅ (rows sample_output !! 0%nat).

Definition sample_output_second : gmap string value :=
  Eval vm_compute in default ∅ (rows sample_output !! 1%nat).

(** ** Proof tactics *)

(** Closed facts about the fixed column lists are settled by evaluation. *)
Ltac by_evaluation := apply (bool_decide_unpack _); vm_compute; exact I.

(** Lookups through a tower of inserts. *)
Ltac lookups :=
  repeat first
    [ rewrite lookup_insert_eq | rewrite lookup_total_insert_eq
    | rewrite lookup_insert_ne by done | rewrite lookup_total_insert_ne by done ].

Ltac lookups_in H :=
  repeat first
    [ rewrite lookup_insert_eq in H | rewrite lookup_total_insert_eq in H
    | rewrite lookup_insert_ne in H by done
    | rewrite lookup_total_insert_ne in H by done ].

(** * Properties *)

(** ** Comparators *)

Section WeakOrderFacts.
Context {A} (cmp : A → A → comparison) `{!WeakOrder cmp}.

Lemma cmp_refl a : cmp a a = Eq.
Proof. pose proof (cmp_antisym a a). destruct (cmp a a); done. Qed.

Lemma cmp_eq_sym a b : cmp a b = Eq → cmp b a = Eq.
Proof. intros E. by rewrite cmp_antisym, E. Qed.

Lemma cmp_eq_r a b c : cmp b c = Eq → cmp a b = cmp a c.
Proof.
  intros E. rewrite (cmp_antisym b a), (cmp_antisym c a).
  f_equal. by apply cmp_eq_l.
Qed.

Lemma cmp_eq_trans a b c : cmp a b = Eq → cmp b c = Eq → cmp a c = Eq.
Proof. intros E1 E2. by rewrite (cmp_eq_l _ _ _ E1). Qed.

Lemma cmp_le_trans a b c :
  is_Gt (cmp a b) = false → is_Gt (cmp b c) = false → is_Gt (cmp a c) = false.
Proof.
  destruct (cmp a b) eqn:E1; [| |done]; destruct (cmp b c) eqn:E2; try done; intros _ _.
  - by rewrite (cmp_eq_trans _ _ _ E1 E2).
  - by rewrite (cmp_eq_l _ _ _ E1), E2.
  - by rewrite <-(cmp_eq_r _ _ _ E2), E1.
  - by rewrite (cmp_lt_trans _ _ _ E1 E2).
Qed.

Lemma cmp_le_total a b : is_Gt (cmp a b) = true → is_Gt (cmp b a) = false.
Proof. rewrite (cmp_antisym a b). by destruct (cmp a b). Qed.

End WeakOrderFacts.

Lemma string_compare_OT s t : String.compare s t = String_as_OT.compare s t.
Proof.
  revert t. induction s as [|a s IH]; intros [|b t]; reflexivity.
Qed.

Lemma string_compare_lt_trans s t u :
  String.compare s t = Lt → String.compare t u = Lt → String.compare s u = Lt.
Proof.
  rewrite !string_compare_OT. intros.
  by apply (String_as_OT.lt_strorder.(StrictOrder_Transitive) s t u).
Qed.

#[global] Instance value_cmp_weak_order : WeakOrder value_cmp.
Proof.
  split.
  - intros [x|p|s|] [y|q|t|]; cbn [value_cmp]; try reflexivity;
      first [apply String.compare_antisym | symmetry; apply Qcompare_antisym].
  - intros [x|p|s|] [y|q|t|] [z|r|u|]; cbn [value_cmp]; try discriminate; try reflexivity;
      try (by intros ->%String.compare_eq_iff);
      by intros E%Qeq_alt; rewrite E.
  - intros [x|p|s|] [y|q|t|] [z|r|u|]; cbn [value_cmp]; try discriminate; try reflexivity;
      try apply string_compare_lt_trans;
      rewrite <-!Qlt_alt; apply Qlt_trans.
Qed.

#[global] Instance key_cmp_weak_order by_ : WeakOrder (key_cmp by_).
Proof.
  induction by_ as [|c cs IH]; split; simpl; try done.
  - intros a b. rewrite (cmp_antisym (cmp:=value_cmp) (a !!! c) (b !!! c)).
    destruct (value_cmp (a !!! c) (b !!! c)); simpl; try done. apply cmp_antisym.
  - intros a b d. destruct (value_cmp (a !!! c) (b !!! c)) eqn:E; try done.
    intros E'. rewrite (cmp_eq_l (cmp:=value_cmp) _ _ (d !!! c) E).
    destruct (value_cmp (b !!! c) (d !!! c)); try done. by apply cmp_eq_l.
  - intros a b d.
    destruct (value_cmp (a !!! c) (b !!! c)) eqn:E1; try done;
      destruct (value_cmp (b !!! c) (d !!! c)) eqn:E2; try done; intros H1 H2.
    + rewrite (cmp_eq_trans value_cmp _ _ _ E1 E2). by eapply cmp_lt_trans.
    + by rewrite (cmp_eq_l (cmp:=value_cmp) _ _ _ E1), E2.
    + by rewrite <-(cmp_eq_r value_cmp _ _ _ E2), E1.
    + by rewrite (cmp_lt_trans (cmp:=value_cmp) _ _ _ E1 E2).
Qed.

(** ** Frames and their rows *)


Lemma cols13_keep_cols : Forall (λ c, c ∈ keep_cols) cols13.
Proof. by_evaluation. Qed.

Lemma hint_independence_not_cols13 : "hint_independence" ∉ cols13.
Proof. by_evaluation. Qed.

Lemma int_cols_cols13 : Forall (λ c, c ∈ cols13) int_cols.
Proof. by_evaluation. Qed.

Lemma str_cols_not_int_cols : Forall (λ c, c ∉ int_cols) str_cols.
Proof. by_evaluation. Qed.

Lemma int_cols_not_str_cols : Forall (λ c, c ∉ str_cols) int_cols.
Proof. by_evaluation. Qed.

Lemma str_cols_not_repaired :
  Forall (λ c, c ∉ ["correct"; "hint_count"; "ms_first_response"; "hint_independence"])
         str_cols.
Proof. by_evaluation. Qed.

Lemma str_cols_keep_cols : Forall (λ c, c ∈ keep_cols) str_cols.
Proof. by_evaluation. Qed.

Lemma int_cols_keep_cols : Forall (λ c, c ∈ keep_cols) int_cols.
Proof. by_evaluation. Qed.

Lemma Forall_elem {A} (P : A → Prop) (l : list A) x : Forall P l → x ∈ l → P x.
Proof. rewrite Forall_forall. auto. Qed.

Lemma require_Some cs df : require cs df = Some () ↔ Forall (λ c, c ∈ columns df) cs.
Proof.
  unfold require, has_column. rewrite Forall_forall.
  destruct (forallb _ cs) eqn:E.
  - split; [intros _|done]. intros c Hc%list_elem_of_In.
    rewrite forallb_forall in E. specialize (E c Hc). by apply bool_decide_eq_true in E.
  - split; [done|]. intros Hall. exfalso.
    assert (forallb (λ c, bool_decide (c ∈ columns df)) cs = true) as E'; [|congruence].
    apply forallb_forall. intros c Hc%list_elem_of_In. apply bool_decide_eq_true. by apply Hall.
Qed.

Lemma require_bind {A} cs df (k : option A) x :
  (require cs df;; k) = Some x ↔ Forall (λ c, c ∈ columns df) cs ∧ k = Some x.
Proof.
  rewrite <-require_Some. destruct (require cs df) as [[]|]; simpl.
  - split; [done|by intros [_ ?]].
  - split; [done|by intros [? _]].
Qed.

Lemma has_column_true c df : has_column c df = true ↔ c ∈ columns df.
Proof. apply bool_decide_eq_true. Qed.

Lemma mapM_compose {A B C} (f : A → option B) (g : B → option C) l l1 l2 :
  mapM f l = Some l1 → mapM g l1 = Some l2 → mapM (λ x, f x ≫= g) l = Some l2.
Proof.
  rewrite !mapM_Some. intros H1. revert l2.
  induction H1 as [|x y l l1 Hxy _ IH]; intros l2 H2; inversion H2; subst; constructor.
  - by rewrite Hxy.
  - by apply IH.
Qed.

Lemma setitem_Some c f df df' :
  setitem c f df = Some df' →
  columns df' = (if has_column c df then columns df else (columns df ++ [c])%list)
  ∧ mapM (row_set c f) (rows df) = Some (rows df').
Proof.
  unfold setitem. destruct (mapM _ _) as [rs|]; simpl; [|done]. by intros [= <-].
Qed.

Lemma update_Some c g df df' :
  update c g df = Some df' →
  c ∈ columns df ∧ columns df' = columns df
  ∧ mapM (row_update c g) (rows df) = Some (rows df').
Proof.
  unfold update. rewrite require_bind. intros [Hc Hs].
  apply Forall_cons_1 in Hc as [Hc _]. apply setitem_Some in Hs as [Hcols Hrows].
  apply has_column_true in Hc as Hc'. rewrite Hc' in Hcols. done.
Qed.

Section StageRows.
Context `{PandasText}.

Lemma for_each_update_Some cols g df df' :
  for_each cols (λ col, update col g) df = Some df' →
  Forall (λ c, c ∈ columns df) cols ∧ columns df' = columns df
  ∧ mapM (row_for_each cols g) (rows df) = Some (rows df').
Proof.
  revert df. induction cols as [|c cols IH]; intros df; simpl.
  - intros [= <-]. split_and!; [done..|]. apply mapM_Some, Forall_Forall2_diag, Forall_true. done.
  - destruct (update c g df) as [d|] eqn:E; simpl; [|done]. intros Hrest.
    apply update_Some in E as (Hc & Hcols & Hrows).
    apply IH in Hrest as (Hall & Hcols' & Hrows'). rewrite Hcols in Hall, Hcols'.
    split_and!; [by constructor|done|]. by eapply mapM_compose.
Qed.

Lemma update_columns c g df df' : update c g df = Some df' → columns df' = columns df.
Proof. by intros (_ & ? & _)%update_Some. Qed.

Lemma for_each_guarded cols g df :
  Forall (λ c, c ∈ columns df) cols →
  for_each cols (λ col d, if has_column col d then update col g d else Some d) df
  = for_each cols (λ col, update col g) df.
Proof.
  revert df. induction cols as [|c cols IH]; intros df Hall; [done|].
  apply Forall_cons_1 in Hall as [Hc Hall]. simpl.
  apply has_column_true in Hc as ->.
  destruct (update c g df) as [d|] eqn:E; simpl; [|done].
  apply IH. by rewrite (update_columns _ _ _ _ E).
Qed.

Lemma for_each_guarded_columns cols g df df' :
  for_each cols (λ col d, if has_column col d then update col g d else Some d) df = Some df' →
  columns df' = columns df.
Proof.
  revert df. induction cols as [|c cols IH]; intros df; simpl; [by intros [= <-]|].
  destruct (has_column c df).
  - destruct (update c g df) as [d|] eqn:E; simpl; [|done].
    intros ->%IH. by eapply update_columns.
  - simpl. apply IH.
Qed.

(** Each stage keeps the columns of its input, up to the one column that
    [add_hint_independence] may append. *)
Lemma dropna_Some cs df df' :
  dropna cs df = Some df' →
  Forall (λ c, c ∈ columns df) cs ∧ columns df' = columns df
  ∧ rows df' = List.filter (notna_all cs) (rows df).
Proof. unfold dropna. rewrite require_bind. by intros [? [= <-]]. Qed.

Lemma remove_missing_values_columns df cs df' :
  remove_missing_values df cs = Some df' → columns df' = columns df.
Proof.
  unfold remove_missing_values. destruct (dropna cs df) as [d|] eqn:E; simpl; [|done].
  apply dropna_Some in E as (_ & <- & _).
  destruct (has_column _ d); [apply update_columns|by intros [= <-]].
Qed.

Lemma fix_logic_errors_columns df df' :
  fix_logic_errors df = Some df' → columns df' = columns df.
Proof.
  unfold fix_logic_errors. rewrite require_bind. intros [Hc Hs].
  destruct (setitem _ _ df) as [d|] eqn:E; simpl in Hs; [|done].
  apply setitem_Some in E as [Hcols _].
  apply Forall_cons_1 in Hc as [Hc%has_column_true _]. rewrite Hc in Hcols.
  rewrite <-Hcols. destruct (has_column _ d); [by eapply update_columns|by injection Hs as <-].
Qed.

Lemma normalize_response_time_columns df m df' :
  normalize_response_time df m = Some df' → columns df' = columns df.
Proof.
  unfold normalize_response_time.
  destruct (has_column _ df); [apply update_columns|by intros [= <-]].
Qed.

Lemma convert_data_types_columns df df' :
  convert_data_types df = Some df' → columns df' = columns df.
Proof.
  unfold convert_data_types. intros Hc.
  destruct (for_each str_cols _ df) as [d|] eqn:E; [|done].
  apply for_each_update_Some in E as (_ & <- & _).
  exact (for_each_guarded_columns _ _ _ _ Hc).
Qed.

Lemma sort_values_Some by_ df df' :
  sort_values by_ df = Some df' →
  Forall (λ c, c ∈ columns df) by_ ∧ columns df' = columns df
  ∧ rows df' = stable_sort by_ (rows df).
Proof.
  unfold sort_values. rewrite require_bind. intros [? Hs].
  injection Hs as <-. done.
Qed.

Lemma check_sequential_order_Some df df' n :
  check_sequential_order df = Some (df', n) →
  sort_values sort_key df = Some df'.
Proof.
  unfold check_sequential_order.
  destruct (sort_values sort_key df) as [d|]; simpl; [|done]. by intros [= <- _].
Qed.

Lemma select_Some cols df df' :
  select cols df = Some df' →
  Forall (λ c, c ∈ columns df) cols ∧ columns df' = cols
  ∧ rows df' = List.map (select_row cols) (rows df).
Proof. unfold select. rewrite require_bind. by intros [? [= <-]]. Qed.

Lemma add_hint_independence_Some df df' :
  add_hint_independence df = Some df' →
  (∀ c, c ∈ columns df' ↔ c ∈ columns df ∨ c = "hint_independence")
  ∧ mapM add_hint_independence_row (rows df) = Some (rows df').
Proof.
  unfold add_hint_independence. rewrite require_bind. intros [_ Hs].
  apply setitem_Some in Hs as [-> Hrows]. split; [|done]. intros c.
  destruct (has_column _ df) eqn:E.
  - apply has_column_true in E. split; [by left|]. by intros [?| ->].
  - rewrite elem_of_app, list_elem_of_singleton. done.
Qed.

Lemma remove_missing_values_rows df cs df' :
  "correct" ∈ columns df →
  remove_missing_values df cs = Some df' →
  mapM remove_missing_values_row (List.filter (notna_all cs) (rows df)) = Some (rows df').
Proof.
  unfold remove_missing_values. intros Hc.
  destruct (dropna cs df) as [d|] eqn:E; simpl; [|done].
  apply dropna_Some in E as (_ & Hcols & <-).
  rewrite <-Hcols in Hc. apply has_column_true in Hc as ->.
  by intros (_ & _ & ?)%update_Some.
Qed.

Lemma fix_logic_errors_rows df df' :
  "correct" ∈ columns df →
  fix_logic_errors df = Some df' →
  mapM fix_logic_errors_row (rows df) = Some (rows df').
Proof.
  unfold fix_logic_errors. rewrite require_bind. intros Hc [Hr Hs].
  destruct (setitem _ _ df) as [d|] eqn:E; simpl in Hs; [|done].
  apply setitem_Some in E as [Hcols Hrows].
  apply Forall_cons_1 in Hr as [Hr%has_column_true _]. rewrite Hr in Hcols.
  rewrite <-Hcols in Hc. apply has_column_true in Hc. rewrite Hc in Hs.
  apply update_Some in Hs as (_ & _ & Hrows').
  by eapply mapM_compose.
Qed.

Lemma normalize_response_time_rows df m df' :
  "ms_first_response" ∈ columns df →
  normalize_response_time df m = Some df' →
  mapM (normalize_response_time_row m) (rows df) = Some (rows df').
Proof.
  unfold normalize_response_time. intros ->%has_column_true.
  by intros (_ & _ & ?)%update_Some.
Qed.

Lemma convert_data_types_rows df df' :
  Forall (λ c, c ∈ columns df) int_cols →
  convert_data_types df = Some df' →
  mapM convert_data_types_row (rows df) = Some (rows df').
Proof.
  unfold convert_data_types. intros Hall Hc.
  destruct (for_each str_cols _ df) as [d|] eqn:E; [|done].
  apply for_each_update_Some in E as (_ & Hcols & Hrows).
  change (for_each int_cols
    (λ col d, if has_column col d then update col to_int d else Some d) d = Some df') in Hc.
  rewrite for_each_guarded in Hc by (by rewrite Hcols).
  apply for_each_update_Some in Hc as (_ & _ & Hrows').
  by eapply mapM_compose.
Qed.

(** The pipeline, as far as its rows go: the rows that survive
    [drop_duplicates] and [dropna] are rewritten one by one by
    [process_row], sorted, and cut down to [keep_cols]. *)
Lemma process_data_Some df out :
  process_data df = Some out →
  Forall (λ c, c ∈ columns df) cols13
  ∧ columns out = keep_cols
  ∧ ∃ l,
      mapM process_row
        (List.filter (notna_all critical_columns)
           (drop_duplicates_rows (columns df) (rows df))) = Some l
      ∧ rows out = List.map (select_row keep_cols) (stable_sort sort_key l).
Proof.
  unfold process_data.
  destruct (remove_missing_values _ _) as [d1|] eqn:E1; simpl; [|done].
  destruct (fix_logic_errors d1) as [d2|] eqn:E2; simpl; [|done].
  destruct (normalize_response_time d2 _) as [d3|] eqn:E3; simpl; [|done].
  destruct (add_hint_independence d3) as [d4|] eqn:E4; simpl; [|done].
  destruct (convert_data_types d4) as [d5|] eqn:E5; simpl; [|done].
  destruct (check_sequential_order d5) as [[d6 n]|] eqn:E6; simpl; [|done].
  intros (Hkeep & Hcols & Hrows)%select_Some.
  apply check_sequential_order_Some, sort_values_Some in E6 as (_ & C6 & R6).
  pose proof (remove_missing_values_columns _ _ _ E1) as C1. simpl in C1.
  pose proof (fix_logic_errors_columns _ _ E2) as C2.
  pose proof (normalize_response_time_columns _ _ _ E3) as C3.
  apply add_hint_independence_Some in E4 as [C4 R4].
  pose proof (convert_data_types_columns _ _ E5) as C5.
  assert (Forall (λ c, c ∈ columns df) cols13) as Hall.
  { rewrite C6, C5 in Hkeep. rewrite Forall_forall in Hkeep. apply Forall_forall.
    intros c Hc. pose proof cols13_keep_cols as Hk. rewrite Forall_forall in Hk.
    pose proof Hc as Hc'. apply Hk, Hkeep, C4 in Hc'. destruct Hc' as [Hc'| ->].
    - by rewrite C3, C2, C1 in Hc'.
    - by apply hint_independence_not_cols13 in Hc. }
  split_and!; [done..|].
  rewrite Forall_forall in Hall.
  apply remove_missing_values_rows in E1; [|apply Hall; by_evaluation].
  apply fix_logic_errors_rows in E2; [|rewrite C1; apply Hall; by_evaluation].
  apply normalize_response_time_rows in E3; [|rewrite C2, C1; apply Hall; by_evaluation].
  apply convert_data_types_rows in E5.
  2:{ eapply Forall_impl; [apply int_cols_cols13|]. intros c Hc. simpl in Hc.
      apply C4. left. rewrite C3, C2, C1. by apply Hall. }
  exists (rows d5). split_and!.
  - unfold process_row. simpl in E1.
    eapply mapM_compose; [exact E1|].
    eapply mapM_compose; [exact E2|].
    eapply mapM_compose; [exact E3|].
    eapply mapM_compose; [exact R4|]. exact E5.
  - by rewrite Hrows, R6.
Qed.

End StageRows.

(** ** One row through the pipeline *)

Lemma row_set_Some c f r r' :
  row_set c f r = Some r' ↔ ∃ v, f r = Some v ∧ r' = <[c:=v]> r.
Proof.
  unfold row_set. destruct (f r) as [v|]; simpl.
  - split; [intros [= <-]; by exists v|by intros (? & [= <-] & ->)].
  - split; [done|by intros (? & ? & _)].
Qed.

Lemma row_update_Some c g r r' :
  row_update c g r = Some r' ↔ ∃ v, g (r !!! c) = Some v ∧ r' = <[c:=v]> r.
Proof. apply row_set_Some. Qed.



Lemma lookup_total_eq (r r' : gmap string value) c :
  r' !! c = r !! c → r' !!! c = r !!! c.
Proof. rewrite !lookup_total_alt. by intros ->. Qed.

Lemma row_set_cells c f r r' :
  row_set c f r = Some r' →
  r' !! c = f r ∧ ∀ c', c' ≠ c → r' !! c' = r !! c'.
Proof.
  intros (v & Hv & ->)%row_set_Some. split.
  - by rewrite lookup_insert_eq.
  - intros c' Hc'. by rewrite lookup_insert_ne.
Qed.

Lemma row_update_cells c g r r' :
  row_update c g r = Some r' →
  r' !! c = g (r !!! c) ∧ ∀ c', c' ≠ c → r' !! c' = r !! c'.
Proof. apply row_set_cells. Qed.

Lemma row_for_each_cells cols g r r' :
  NoDup cols →
  row_for_each cols g r = Some r' →
  (∀ c, c ∈ cols → r' !! c = g (r !!! c)) ∧ (∀ c, c ∉ cols → r' !! c = r !! c).
Proof.
  intros Hnd. revert r. induction Hnd as [|c0 cs Hc0 _ IH]; intros r; simpl.
  - intros [= <-]. split; [by intros c ?%elem_of_nil|done].
  - intros (r1 & [Hset Hother]%row_update_cells & [Hin Hout]%IH)%bind_Some. split.
    + intros c [->|Hc]%elem_of_cons.
      * by rewrite Hout, Hset.
      * rewrite Hin by done. f_equal. apply lookup_total_eq, Hother. by intros ->.
    + intros c [Hne Hc]%not_elem_of_cons. by rewrite Hout, Hother.
Qed.

Lemma row_for_each_preserves cols g r r' c :
  row_for_each cols g r = Some r' → is_Some (r !! c) → is_Some (r' !! c).
Proof.
  revert r. induction cols as [|c0 cs IH]; intros r; simpl; [by intros [= <-]|].
  intros (r1 & Hu & Hr')%bind_Some Hc. unfold row_update in Hu.
  apply row_set_Some in Hu as (v & _ & ->).
  apply (IH _ Hr'). apply lookup_insert_is_Some'. by right.
Qed.

Lemma row_for_each_is_Some cols g r r' c :
  row_for_each cols g r = Some r' → c ∈ cols → is_Some (r' !! c).
Proof.
  revert r. induction cols as [|c0 cs IH]; intros r; simpl; [by intros _ ?%elem_of_nil|].
  intros (r1 & Hu & Hr')%bind_Some [->|Hc]%elem_of_cons;
    unfold row_update in Hu; apply row_set_Some in Hu as (v & _ & ->).
  - apply (row_for_each_preserves _ _ _ _ _ Hr'). rewrite lookup_insert_eq. by eexists.
  - by apply (IH _ Hr').
Qed.

Lemma keep_cols_cases :
  Forall (λ c, c ∈ str_cols ∨ c ∈ int_cols ∨ c = "hint_independence") keep_cols.
Proof. by_evaluation. Qed.

Section RowCells.
Context `{PandasText}.

Lemma convert_data_types_row_cells r r' :
  convert_data_types_row r = Some r' →
  (∀ c, c ∈ str_cols → r' !! c = to_str (r !!! c))
  ∧ (∀ c, c ∈ int_cols → r' !! c = to_int (r !!! c))
  ∧ (∀ c, c ∉ str_cols → c ∉ int_cols → r' !! c = r !! c)
  ∧ (∀ c, c ∈ int_cols → is_Some (r' !! c)).
Proof.
  unfold convert_data_types_row.
  intros (r1 & Hs & Hi)%bind_Some.
  pose proof (λ c, row_for_each_is_Some _ _ _ _ c Hi) as Hint.
  apply row_for_each_cells in Hs as [S1 S2]; [|by_evaluation].
  apply row_for_each_cells in Hi as [I1 I2]; [|by_evaluation].
  split_and!; [| | |by apply Hint].
  - intros c Hc. rewrite I2, S1; [done..|].
    exact (Forall_elem _ _ _ str_cols_not_int_cols Hc).
  - intros c Hc. rewrite I1 by done. f_equal. apply lookup_total_eq, S2.
    exact (Forall_elem _ _ _ int_cols_not_str_cols Hc).
  - intros c Hs Hi. by rewrite I2, S2.
Qed.

Lemma process_row_cells r r' :
  process_row r = Some r' →
  (∀ c, c ∈ str_cols → r' !! c = Some (VStr (astype_str (r !!! c))))
  ∧ r' !! "correct" = correct_cell (r !!! "correct")
  ∧ r' !! "attempt_count" = to_int (r !!! "attempt_count")
  ∧ r' !! "ms_first_response" = ms_first_response_cell (r !!! "ms_first_response")
  ∧ r' !! "hint_count" = hint_count_cell (r !!! "hint_count") (r !!! "hint_total")
  ∧ r' !! "hint_total" = to_int (r !!! "hint_total")
  ∧ r' !! "hint_independence"
      = hint_independence_cell (r !!! "hint_count") (r !!! "hint_total")
  ∧ (∀ c, c ∉ keep_cols → r' !! c = r !! c)
  ∧ (∀ c, c ∈ keep_cols → is_Some (r' !! c)).
Proof.
  unfold process_row, remove_missing_values_row, fix_logic_errors_row,
    normalize_response_time_row, add_hint_independence_row, row_update.
  intros (r1 & (v1 & E1 & ->)%row_set_Some & E)%bind_Some.
  apply bind_Some in E as (r2 & E2 & E).
  apply bind_Some in E2 as (r2a & (h & Eh & ->)%row_set_Some & (v2 & E2 & ->)%row_set_Some).
  apply bind_Some in E as (r3 & (m & E3 & ->)%row_set_Some & E).
  apply bind_Some in E as (r4 & (i & E4 & ->)%row_set_Some & E).
  apply convert_data_types_row_cells in E as (S & I & O & Hint).
  unfold hint_independence, clamp_hint_count in *.
  lookups_in E2. lookups_in E3. lookups_in E4. lookups_in Eh.
  split_and!.
  - intros c Hc. rewrite S by done. unfold to_str. do 3 f_equal.
    apply lookup_total_eq.
    pose proof (Forall_elem _ _ _ str_cols_not_repaired Hc) as Hk.
    rewrite !lookup_insert_ne; [done|intros <-; apply Hk; by_evaluation..].
  - rewrite I by by_evaluation. lookups.
    unfold correct_cell. rewrite E1. cbn [mbind option_bind]. by rewrite E2.
  - rewrite I by by_evaluation. by lookups.
  - rewrite I by by_evaluation. lookups.
    unfold ms_first_response_cell. by rewrite E3.
  - rewrite I by by_evaluation. lookups.
    unfold hint_count_cell. by rewrite Eh.
  - rewrite I by by_evaluation. by lookups.
  - rewrite O by by_evaluation. lookups.
    unfold hint_independence_cell. by rewrite Eh.
  - intros c Hc. rewrite O.
    + rewrite !lookup_insert_ne; [done|intros <-; apply Hc; by_evaluation..].
    + intros Hs. apply Hc. exact (Forall_elem _ _ _ str_cols_keep_cols Hs).
    + intros Hs. apply Hc. exact (Forall_elem _ _ _ int_cols_keep_cols Hs).
  - intros c Hc.
    destruct (Forall_elem _ _ _ keep_cols_cases Hc) as [Hs|[Hi| ->]].
    + rewrite S by done. by eexists.
    + by apply Hint.
    + rewrite O by by_evaluation. lookups. by eexists.
Qed.

End RowCells.

(** ** Cells: truncation, casts and comparisons *)

Lemma Qtrunc_floor q : 0 ≤ Qnum q → Qtrunc q = Qfloor q.
Proof. destruct q as [n d]. simpl. intros. by apply Z.quot_div_nonneg. Qed.

Lemma Qtrunc_ceiling q : Qnum q ≤ 0 → Qtrunc q = Qceiling q.
Proof.
  destruct q as [n d]. unfold Qtrunc, Qceiling, Qfloor. simpl. intros Hn.
  rewrite <-(Z.opp_involutive n) at 1. rewrite Z.quot_opp_l by done.
  f_equal. apply Z.quot_div_nonneg; lia.
Qed.

Lemma Qtrunc_inject_Z z : Qtrunc (inject_Z z) = z.
Proof. unfold Qtrunc. simpl. apply Z.quot_1_r. Qed.

Lemma Qtrunc_mono p q : (p <= q)%Q → Qtrunc p ≤ Qtrunc q.
Proof.
  intros Hle.
  destruct (Z.le_gt_cases 0 (Qnum p)) as [Hp|Hp], (Z.le_gt_cases 0 (Qnum q)) as [Hq|Hq].
  - rewrite !Qtrunc_floor by done. by apply Qfloor_resp_le.
  - exfalso. unfold Qle in Hle. nia.
  - rewrite Qtrunc_ceiling, Qtrunc_floor by lia.
    transitivity 0.
    + change 0 with (Qceiling 0). apply Qceiling_resp_le. unfold Qle. simpl. lia.
    + change 0 with (Qfloor 0). apply Qfloor_resp_le. unfold Qle. simpl. lia.
  - rewrite !Qtrunc_ceiling by lia. by apply Qceiling_resp_le.
Qed.

Lemma int64_Some z z' : int64 z = Some z' → z' = z ∧ INT64_MIN ≤ z ≤ INT64_MAX.
Proof.
  unfold int64. destruct (_ && _) eqn:E; [|done]. intros [= <-].
  apply andb_true_iff in E as [?%Z.leb_le ?%Z.leb_le]. done.
Qed.

Lemma int64_id z : INT64_MIN ≤ z ≤ INT64_MAX → int64 z = Some z.
Proof.
  intros [? ?]. unfold int64.
  by rewrite (proj2 (Z.leb_le _ _)), (proj2 (Z.leb_le _ _)).
Qed.

Lemma float_to_int64_range q : INT64_MIN ≤ float_to_int64 q ≤ INT64_MAX.
Proof.
  unfold float_to_int64. cbv zeta. destruct (_ && _) eqn:E.
  - apply andb_true_iff in E as [?%Z.leb_le ?%Z.leb_le]. done.
  - done.
Qed.

Lemma float_to_int64_id q :
  INT64_MIN ≤ Qtrunc q ≤ INT64_MAX → float_to_int64 q = Qtrunc q.
Proof.
  intros [? ?]. unfold float_to_int64. cbv zeta.
  by rewrite (proj2 (Z.leb_le _ _)), (proj2 (Z.leb_le _ _)).
Qed.

Lemma float_to_int64_le q m :
  INT64_MIN ≤ m → (q <= inject_Z m)%Q → float_to_int64 q ≤ m.
Proof.
  intros Hm Hq. unfold float_to_int64. cbv zeta. destruct (_ && _); [|done].
  rewrite <-(Qtrunc_inject_Z m). by apply Qtrunc_mono.
Qed.

Lemma value_gt_false_le a b :
  is_numeric a = true → is_numeric b = true →
  value_gt a b = Some false → (num a <= num b)%Q.
Proof.
  destruct a, b; try done; simpl; intros _ _ [= E]; apply Qle_alt;
    by destruct (Qcompare _ _).
Qed.

Lemma value_gt_true_gt a b :
  is_numeric a = true → is_numeric b = true →
  value_gt a b = Some true → (num b < num a)%Q.
Proof.
  destruct a, b; try done; simpl; intros _ _ [= E]; apply Qgt_alt;
    by destruct (Qcompare _ _).
Qed.

Lemma value_gt_numeric a b :
  is_numeric a = true → is_numeric b = true →
  value_gt a b = Some (is_Gt (Qcompare (num a) (num b))).
Proof. by destruct a, b. Qed.

Section CellFacts.
Context `{PandasText}.

Lemma to_numeric_numeric v : is_numeric v = true → to_numeric v = v.
Proof. by destruct v. Qed.

Lemma to_numeric_not_str v : is_str (to_numeric v) = false.
Proof. destruct v as [| |s|]; simpl; try done. by destruct (parse_numeric s) as [[|]|]. Qed.



Lemma to_int_Some v w :
  to_int v = Some w → ∃ z, w = VInt z ∧ INT64_MIN ≤ z ≤ INT64_MAX.
Proof.
  unfold to_int. intros (z & Hz & ->)%fmap_Some. exists z. split; [done|].
  pose proof (to_numeric_not_str v) as Hs.
  destruct (to_numeric v) as [x|q|s|]; try done; simpl in Hz.
  - by apply int64_Some in Hz as [-> ?].
  - injection Hz as <-. apply float_to_int64_range.
  - by apply int64_Some in Hz as [-> ?].
Qed.

(** The integer cast of a number that is at most [m] is at most [m]. *)
Lemma to_int_le v w m :
  is_numeric v = true → INT64_MIN ≤ m → (num v <= inject_Z m)%Q →
  to_int v = Some w → ∃ z, w = VInt z ∧ z ≤ m.
Proof.
  intros Hv Hm Hle. unfold to_int. rewrite to_numeric_numeric by done.
  replace (fillna (VInt 0) v) with v by (by destruct v).
  intros (z & Hz & ->)%fmap_Some. exists z. split; [done|].
  destruct v as [x|q| |]; try done; simpl in Hz.
  - apply int64_Some in Hz as [-> _].
    change (num (VInt x)) with (inject_Z x) in Hle.
    rewrite <-(Qtrunc_inject_Z x), <-(Qtrunc_inject_Z m). by apply Qtrunc_mono.
  - injection Hz as <-. by apply float_to_int64_le.
Qed.

Lemma to_int_VInt z :
  INT64_MIN ≤ z ≤ INT64_MAX → to_int (VInt z) = Some (VInt z).
Proof. intros. unfold to_int. simpl. by rewrite int64_id. Qed.

Lemma fillna_numeric d v :
  is_numeric d = true → is_str v = false → is_numeric (fillna d v) = true.
Proof. by destruct v. Qed.

Lemma clamp_hint_Some a b h :
  clamp_hint a b = Some h →
  ∃ mask, value_gt a b = Some mask ∧ h = if mask then b else a.
Proof.
  unfold clamp_hint. intros (mask & ? & [= <-])%bind_Some. by exists mask.
Qed.

(** Present hint cells that [independence] accepts are numbers. *)
Lemma hint_cells_numeric a b vi :
  isna a = false → isna b = false →
  hint_independence_cell a b = Some vi →
  ∃ mask, value_gt a b = Some mask
          ∧ is_numeric a = true ∧ is_numeric b = true
          ∧ independence (if mask then b else a) b = Some vi.
Proof.
  intros Ha Hb. unfold hint_independence_cell.
  intros (h & (mask & Hgt & ->)%clamp_hint_Some & Hi)%bind_Some.
  exists mask. pose proof Hi as Hi'.
  apply bind_Some in Hi as (ratio & Hdiv & _).
  assert (is_numeric b = true) as Nb.
  { destruct b as [| |s|]; try done. exfalso.
    destruct mask, a; simpl in *; congruence. }
  assert (is_numeric a = true) as Na.
  { destruct a as [| |s|]; try done. destruct b; simpl in *; congruence. }
  done.
Qed.

Lemma Qcompare_inject_Z a b : Qcompare (inject_Z a) (inject_Z b) = Z.compare a b.
Proof. unfold Qcompare. simpl. by rewrite !Z.mul_1_r. Qed.

Lemma value_eqb_VInt a b : value_eqb (VInt a) (VInt b) = (a =? b).
Proof.
  unfold value_eqb. change (value_cmp (VInt a) (VInt b))
    with (Qcompare (inject_Z a) (inject_Z b)).
  rewrite Qcompare_inject_Z.
  destruct (Z.compare_spec a b), (Z.eqb_spec a b); done || lia.
Qed.

Lemma coerce_correct_VInt z :
  coerce_correct (VInt z) = Some (VInt (if z =? 0 then 0 else 1)).
Proof.
  unfold coerce_correct, isin01. rewrite !value_eqb_VInt. unfold truthy.
  destruct (Z.eqb_spec z 0) as [->|?]; [done|].
  destruct (Z.eqb_spec z 1) as [->|?]; done.
Qed.

(** The flag a [correct] cell ends as: 0 when the cell is missing or its
    integer cast is 0, otherwise 1. *)
Lemma correct_cell_Some v w :
  correct_cell v = Some w ↔
  ∃ z, astype_int (fillna (VInt 0) v) = Some z ∧ w = VInt (if z =? 0 then 0 else 1).
Proof.
  unfold correct_cell. split.
  - intros (v1 & (z & Hz & ->)%fmap_Some & (v2 & Hv2 & Hw)%bind_Some)%bind_Some.
    rewrite coerce_correct_VInt in Hv2. injection Hv2 as <-.
    exists z. split; [done|].
    destruct (z =? 0); rewrite to_int_VInt in Hw by done; congruence.
  - intros (z & -> & ->). cbn [fmap option_fmap option_map mbind option_bind].
    rewrite coerce_correct_VInt. cbn [mbind option_bind].
    by destruct (z =? 0); rewrite to_int_VInt.
Qed.

Lemma clamp_response_time_Some m v w :
  clamp_response_time m v = Some w →
  let x := fillna (VInt 0) (to_numeric v) in
  is_numeric x = true
  ∧ w = if is_Gt (Qcompare (num x) (inject_Z m)) then VInt m else x.
Proof.
  unfold clamp_response_time.
  assert (is_numeric (fillna (VInt 0) (to_numeric v)) = true) as Hn.
  { apply fillna_numeric; [done|apply to_numeric_not_str]. }
  rewrite value_gt_numeric by done. cbn [mbind option_bind].
  by intros [= <-].
Qed.

Lemma clamp_response_time_le m z :
  z ≤ m → clamp_response_time m (VInt z) = Some (VInt z).
Proof.
  intros Hz. unfold clamp_response_time.
  change (fillna (VInt 0) (to_numeric (VInt z))) with (VInt z).
  rewrite value_gt_numeric by done.
  change (num (VInt z)) with (inject_Z z). change (num (VInt m)) with (inject_Z m).
  rewrite Qcompare_inject_Z. simpl.
  destruct (Z.compare_spec z m); done || lia.
Qed.

Lemma ms_first_response_cell_Some v w :
  ms_first_response_cell v = Some w →
  ∃ z, w = VInt z ∧ z ≤ max_seconds_default ∧ INT64_MIN ≤ z ≤ INT64_MAX.
Proof.
  unfold ms_first_response_cell.
  intros (m & [Hn ->]%clamp_response_time_Some & Hw)%bind_Some.
  destruct (to_int_Some _ _ Hw) as (z & -> & Hz). exists z.
  split; [done|]. split; [|done].
  destruct (Qcompare _ _) eqn:E; simpl in Hw.
  - apply to_int_le with (m := max_seconds_default) in Hw as (z' & [= ->] & ?);
      [done..|]. apply Qle_alt. by rewrite E.
  - apply to_int_le with (m := max_seconds_default) in Hw as (z' & [= ->] & ?);
      [done..|]. apply Qle_alt. by rewrite E.
  - rewrite to_int_VInt in Hw by done. by injection Hw as <-.
Qed.

End CellFacts.

(** ** Row filters, duplicates and sorting *)

Lemma Forall_list_filter {A} (P : A → Prop) f (l : list A) :
  Forall P l → Forall P (List.filter f l).
Proof.
  rewrite !Forall_forall. intros Hl x Hx%list_elem_of_In%filter_In.
  apply Hl, list_elem_of_In, Hx.
Qed.

Lemma Forall_list_filter_true {A} f (l : list A) :
  Forall (λ x, f x = true) (List.filter f l).
Proof.
  apply Forall_forall. by intros x [_ ?]%list_elem_of_In%filter_In.
Qed.

Lemma list_filter_sublist {A} f (l : list A) : List.filter f l `sublist_of` l.
Proof.
  induction l as [|x l IH]; simpl; [constructor|].
  destruct (f x); by constructor.
Qed.

Lemma list_filter_nil {A} f (l : list A) :
  Forall (λ x, f x = false) l → List.filter f l = [].
Proof.
  induction 1 as [|x l Hx _ IH]; simpl; [done|]. by rewrite Hx.
Qed.

Lemma list_filter_id {A} f (l : list A) :
  Forall (λ x, f x = true) l → List.filter f l = l.
Proof.
  intros Hl. apply forallb_filter_id, forallb_forall.
  intros x Hx%list_elem_of_In. by apply (Forall_elem _ _ _ Hl).
Qed.

Lemma list_filter_StronglySorted {A} (R : A → A → Prop) f l :
  StronglySorted R l → StronglySorted R (List.filter f l).
Proof.
  induction 1 as [|x l _ IH Hx]; simpl; [constructor|].
  destruct (f x); [|done]. constructor; [done|]. by apply Forall_list_filter.
Qed.

Section RowEquality.
Context (cols : list string).

Lemma value_eqb_refl v : value_eqb v v = true.
Proof. unfold value_eqb. by rewrite (cmp_refl value_cmp). Qed.

Lemma value_eqb_sym a b : value_eqb a b = value_eqb b a.
Proof.
  unfold value_eqb. rewrite (cmp_antisym (cmp:=value_cmp) b a).
  by destruct (value_cmp b a).
Qed.

Lemma value_eqb_trans a b c :
  value_eqb a b = true → value_eqb b c = true → value_eqb a c = true.
Proof.
  unfold value_eqb.
  destruct (value_cmp a b) eqn:E1; [|done..]. destruct (value_cmp b c) eqn:E2; [|done..].
  by rewrite (cmp_eq_trans value_cmp _ _ _ E1 E2).
Qed.

Lemma row_eqb_true r1 r2 :
  row_eqb cols r1 r2 = true ↔ ∀ c, c ∈ cols → value_eqb (r1 !!! c) (r2 !!! c) = true.
Proof.
  unfold row_eqb. rewrite forallb_forall. by setoid_rewrite list_elem_of_In.
Qed.

Lemma row_eqb_refl r : row_eqb cols r r = true.
Proof. apply row_eqb_true. intros. apply value_eqb_refl. Qed.

Lemma row_eqb_sym r1 r2 : row_eqb cols r1 r2 = row_eqb cols r2 r1.
Proof.
  apply Bool.eq_iff_eq_true. rewrite !row_eqb_true.
  split; intros Hr c Hc; rewrite value_eqb_sym; auto.
Qed.

Lemma row_eqb_trans r1 r2 r3 :
  row_eqb cols r1 r2 = true → row_eqb cols r2 r3 = true → row_eqb cols r1 r3 = true.
Proof.
  rewrite !row_eqb_true. intros H1 H2 c Hc. eapply value_eqb_trans; eauto.
Qed.

Lemma drop_duplicates_rows_sublist l : drop_duplicates_rows cols l `sublist_of` l.
Proof.
  induction l as [|r l IH]; simpl; [constructor|].
  constructor. etransitivity; [apply list_filter_sublist|done].
Qed.

Lemma drop_duplicates_rows_distinct l :
  distinct_rows cols (drop_duplicates_rows cols l).
Proof.
  induction l as [|r l IH]; simpl; [constructor|]. constructor.
  - by apply list_filter_StronglySorted.
  - eapply Forall_impl; [apply Forall_list_filter_true|].
    intros r'. simpl. by intros ->%negb_true_iff.
Qed.

Lemma drop_duplicates_rows_id l :
  distinct_rows cols l → drop_duplicates_rows cols l = l.
Proof.
  induction 1 as [|r l _ IH Hr]; simpl; [done|]. rewrite IH. f_equal.
  apply list_filter_id. eapply Forall_impl; [exact Hr|]. simpl. by intros r' ->.
Qed.

(** Nothing is lost but duplicates: every row of the input agrees with a
    row that is kept. *)
Lemma drop_duplicates_rows_complete l r :
  r ∈ l → ∃ r', r' ∈ drop_duplicates_rows cols l ∧ row_eqb cols r' r = true.
Proof.
  induction l as [|x l IH]; [by intros ?%elem_of_nil|].
  intros [->|Hr]%elem_of_cons; simpl.
  - exists x. split; [by left|apply row_eqb_refl].
  - destruct (IH Hr) as (r' & Hr' & Heq).
    destruct (row_eqb cols x r') eqn:E.
    + exists x. split; [by left|]. by eapply row_eqb_trans.
    + exists r'. split; [|done]. right.
      apply list_elem_of_In, filter_In. split; [by apply list_elem_of_In|].
      by rewrite E.
Qed.

(** [keep='first']: a row is kept exactly when no earlier row agrees with
    it. *)
Lemma drop_duplicates_rows_snoc l r :
  drop_duplicates_rows cols (l ++ [r])
  = (drop_duplicates_rows cols l
     ++ (if existsb (row_eqb cols r) l then [] else [r]))%list.
Proof.
  induction l as [|x l IH]; simpl; [done|].
  rewrite IH, List.filter_app. f_equal. f_equal.
  rewrite (row_eqb_sym r x).
  destruct (existsb _ l); simpl; [by rewrite orb_true_r|].
  rewrite orb_false_r. by destruct (row_eqb cols x r).
Qed.

End RowEquality.

Section Sorting.
Context (by_ : list string).

Lemma key_leb_trans r1 r2 r3 :
  key_leb by_ r1 r2 = true → key_leb by_ r2 r3 = true → key_leb by_ r1 r3 = true.
Proof.
  unfold key_leb. rewrite !negb_true_iff. apply (cmp_le_trans (key_cmp by_)).
Qed.

Lemma key_leb_total r1 r2 : key_leb by_ r1 r2 = false → key_leb by_ r2 r1 = true.
Proof.
  unfold key_leb. rewrite negb_false_iff, negb_true_iff.
  apply (cmp_le_total (key_cmp by_)).
Qed.

Lemma insert_sorted_Permutation r l : insert_sorted by_ r l ≡ₚ r :: l.
Proof.
  induction l as [|x l IH]; simpl; [done|].
  destruct (key_leb by_ r x); [done|]. rewrite IH. apply Permutation_swap.
Qed.

Lemma stable_sort_Permutation l : stable_sort by_ l ≡ₚ l.
Proof.
  induction l as [|r l IH]; simpl; [done|].
  by rewrite insert_sorted_Permutation, IH.
Qed.

Lemma insert_sorted_sorted r l :
  key_sorted by_ l → key_sorted by_ (insert_sorted by_ r l).
Proof.
  induction 1 as [|x l Hl IH Hx]; simpl; [by repeat constructor|].
  destruct (key_leb by_ r x) eqn:E.
  - constructor; [by constructor|]. constructor; [done|].
    eapply Forall_impl; [exact Hx|]. simpl. intros y. by apply key_leb_trans.
  - constructor; [done|]. rewrite insert_sorted_Permutation.
    constructor; [by apply key_leb_total|done].
Qed.

Lemma stable_sort_sorted l : key_sorted by_ (stable_sort by_ l).
Proof.
  induction l as [|r l IH]; simpl; [constructor|]. by apply insert_sorted_sorted.
Qed.

Lemma stable_sort_id l : key_sorted by_ l → stable_sort by_ l = l.
Proof.
  induction 1 as [|r l _ IH Hr]; simpl; [done|]. rewrite IH.
  destruct Hr as [|x l Hx _]; simpl; [done|]. by rewrite Hx.
Qed.

End Sorting.

Lemma key_cmp_group_sort r1 r2 :
  key_leb sort_key r1 r2 = true →
  row_eqb group_key r1 r2 = true →
  is_Gt (value_cmp (r1 !!! "ms_first_response") (r2 !!! "ms_first_response")) = false.
Proof.
  unfold key_leb, row_eqb, value_eqb. simpl.
  destruct (value_cmp (r1 !!! "user_id") _); try done.
  destruct (value_cmp (r1 !!! "problem_id") _); try done.
  intros ?%negb_true_iff _. by destruct (value_cmp _ _).
Qed.

(** ** The rows of the output *)

Lemma select_row_lookup cols r c :
  select_row cols r !! c = if decide (c ∈ cols) then r !! c else None.
Proof.
  unfold select_row. destruct (decide (c ∈ cols)) as [Hc|Hc].
  - apply option_eq. intros v. rewrite map_lookup_filter_Some. simpl. tauto.
  - apply map_lookup_filter_None. right. intros v _. done.
Qed.

Lemma select_row_keep cols r c : c ∈ cols → select_row cols r !! c = r !! c.
Proof. intros. rewrite select_row_lookup. by destruct (decide _). Qed.


Section OutputRows.
Context `{PandasText}.

(** A property of the processed row holds of every row of the output. *)
Lemma process_data_Forall (P : gmap string value → Prop) df out :
  (∀ r r', r ∈ rows df → notna_all critical_columns r = true →
           process_row r = Some r' → P (select_row keep_cols r')) →
  process_data df = Some out → Forall P (rows out).
Proof.
  intros HP (_ & _ & l & Hl & ->)%process_data_Some.
  apply Forall_fmap. rewrite stable_sort_Permutation.
  apply mapM_Some in Hl.
  eapply Forall2_Forall_r; [exact Hl|].
  apply Forall_forall. intros r [Hr Hna]%list_elem_of_In%filter_In r' Hrr'.
  apply (HP r r'); [|done..].
  apply (sublist_subseteq _ _ (drop_duplicates_rows_sublist (columns df) (rows df))).
  by apply list_elem_of_In.
Qed.

Lemma process_data_length df out :
  process_data df = Some out →
  length (rows out)
  = length (List.filter (notna_all critical_columns)
              (drop_duplicates_rows (columns df) (rows df))).
Proof.
  intros (_ & _ & l & Hl & ->)%process_data_Some.
  rewrite length_map, stable_sort_Permutation. symmetry. by eapply length_mapM.
Qed.

End OutputRows.

(** ** The hint bound (claim C1) *)

Lemma notna_all_elem cs r c :
  notna_all cs r = true → c ∈ cs → isna (r !!! c) = false.
Proof.
  unfold notna_all. rewrite forallb_forall. intros Hall Hc%list_elem_of_In.
  apply Hall in Hc. by apply negb_true_iff.
Qed.

Section HintBound.
Context `{PandasText}.







End HintBound.

Lemma sample_run : process_data (H:=decimal_text) sample_frame = Some sample_output.
Proof. vm_compute. reflexivity. Qed.




(** ** The output columns (claim C5) *)

Section OutputColumns.
Context `{PandasText}.

Lemma process_row_exactly_keep_cols r r' c :
  process_row r = Some r' → is_Some (select_row keep_cols r' !! c) ↔ c ∈ keep_cols.
Proof.
  intros (_ & _ & _ & _ & _ & _ & _ & _ & Hsome)%process_row_cells.
  rewrite select_row_lookup. destruct (decide (c ∈ keep_cols)) as [Hc|Hc].
  - split; [done|]. intros _. by apply Hsome.
  - split; [by intros [? ?]|done].
Qed.

(** C5.  Whenever the pipeline returns, its input had the thirteen input
    columns, and its output has exactly the fourteen columns of
    [keep_cols], in that order: the column list is [keep_cols] and every
    row holds a cell under these names and no other.  The output has one
    row per input row that survives [drop_duplicates] and [dropna]. *)
Theorem output_has_exactly_the_14_columns df out :
  process_data df = Some out →
  Forall (λ c, c ∈ columns df) cols13
  ∧ columns out =
      ["user_id"; "problem_id"; "template_id"; "skill_id"; "skill_name";
       "teacher_id"; "student_class_id"; "school_id"; "correct"; "attempt_count";
       "ms_first_response"; "hint_count"; "hint_total"; "hint_independence"]
  ∧ Forall (λ r, ∀ c, is_Some (r !! c) ↔ c ∈ columns out) (rows out)
  ∧ length (rows out)
    = length (List.filter (notna_all critical_columns)
                (drop_duplicates_rows (columns df) (rows df))).
Proof.
  intros Hout. pose proof (process_data_Some _ _ Hout) as (Hcols & Hkeep & _).
  split_and!; [done|done| |by apply process_data_length].
  rewrite Hkeep. revert Hout. apply process_data_Forall.
  intros r r' _ _ Hr c. exact (process_row_exactly_keep_cols r r' c Hr).
Qed.

End OutputColumns.

Lemma output_has_exactly_the_14_columns_witness :
  process_data (H:=decimal_text) sample_frame = Some sample_output
  ∧ length (columns sample_output) = 14%nat
  ∧ length (rows sample_output) = 3%nat.
Proof.
  split; [exact sample_run|].
  destruct (output_has_exactly_the_14_columns (H:=decimal_text)
              sample_frame sample_output sample_run) as (_ & Hc & _ & Hl).
  split; [by rewrite Hc|]. rewrite Hl. vm_compute. reflexivity.
Defined.

(** ** The outcome flag (claim C4) *)

(** C4, as stated, fails: 0.5 is present, is not 0 and is not 1, yet the
    pipeline stores 0 for it, because [remove_missing_values] truncates
    the column to integers before [fix_logic_errors] looks at it. *)
Lemma correct_one_half_becomes_0 :
  isna (VFloat (1 # 2)) = false
  ∧ isin01 (VFloat (1 # 2)) = false
  ∧ truthy (VFloat (1 # 2)) = true
  ∧ ∃ out r, process_data (H:=decimal_text) half_frame = Some out
             ∧ rows out = [r]
             ∧ r !! "correct" = Some (VInt 0).
Proof.
  split_and!; [reflexivity..|].
  eexists _, _. split_and!; [vm_compute; reflexivity|reflexivity|].
  vm_compute. reflexivity.
Qed.

Lemma Qtrunc_fraction q : (-1 < q)%Q → (q < 1)%Q → Qtrunc q = 0.
Proof.
  unfold Qlt, Qtrunc. simpl. intros Hlo Hhi.
  apply Z.quot_small_iff; [done|]. lia.
Qed.

Section OutcomeFlag.
Context `{PandasText}.

Lemma remove_missing_values_correct df cs df' :
  "correct" ∈ columns df → remove_missing_values df cs = Some df' →
  Forall2 (λ r r', ∃ z, astype_int (fillna (VInt 0) (r !!! "correct")) = Some z
                        ∧ r' !! "correct" = Some (VInt z))
          (List.filter (notna_all cs) (rows df)) (rows df').
Proof.
  intros Hc Hr. apply remove_missing_values_rows in Hr; [|done].
  apply mapM_Some in Hr. eapply Forall2_impl; [exact Hr|].
  intros r r' Hrr'. simpl in Hrr'. unfold remove_missing_values_row in Hrr'.
  apply row_update_Some in Hrr' as (v & (z & Hz & ->)%fmap_Some & ->).
  exists z. by rewrite lookup_insert_eq.
Qed.

Lemma fix_logic_errors_correct df df' :
  "correct" ∈ columns df → fix_logic_errors df = Some df' →
  Forall2 (λ r r', r' !! "correct" = coerce_correct (r !!! "correct"))
          (rows df) (rows df').
Proof.
  intros Hc Hf. apply fix_logic_errors_rows in Hf; [|done].
  apply mapM_Some in Hf. eapply Forall2_impl; [exact Hf|].
  intros r r' Hrr'. simpl in Hrr'. unfold fix_logic_errors_row in Hrr'.
  apply bind_Some in Hrr' as (r1 & (h & _ & ->)%row_set_Some & Hu).
  apply row_update_Some in Hu as (w & Hw & ->). lookups_in Hw.
  by rewrite lookup_insert_eq.
Qed.

Lemma process_row_correct r r1 :
  process_row r = Some r1 →
  ∃ z, astype_int (fillna (VInt 0) (r !!! "correct")) = Some z
       ∧ select_row keep_cols r1 !! "correct"
         = Some (VInt (if z =? 0 then 0 else 1)).
Proof.
  intros (_ & Hc & _ & _ & _ & _ & _ & _ & Hsome)%process_row_cells.
  rewrite select_row_keep by by_evaluation.
  destruct (Hsome "correct") as [w Hw]; [by_evaluation|].
  rewrite Hw in Hc |- *. symmetry in Hc. apply correct_cell_Some in Hc as (z & Hz & ->).
  by exists z.
Qed.

(** C4, amended.  [remove_missing_values] stores in the [correct] cell
    of each row it keeps the integer cast of that row's own cell, a
    missing cell counting as 0 (truncation toward zero for a float);
    [fix_logic_errors] then keeps, row by row, a flag that is 0 or 1 and
    turns every other integer into 1.  In the pipeline each surviving
    row is rewritten on its own, and its output flag is 0 when the
    integer cast of its input cell is 0 and 1 otherwise: so missing and
    zero cells, and also fractions strictly between -1 and 1, end as 0,
    and every other cell ends as 1.  Every [correct] cell of the output
    is 0 or 1; [correct = 2] ends as 1 and a missing [correct] ends as
    0. *)
Theorem correct_is_0_or_1_after_integer_cast :
  (∀ df cs df', "correct" ∈ columns df → remove_missing_values df cs = Some df' →
     Forall2 (λ r r', ∃ z, astype_int (fillna (VInt 0) (r !!! "correct")) = Some z
                           ∧ r' !! "correct" = Some (VInt z))
             (List.filter (notna_all cs) (rows df)) (rows df'))
  ∧ (∀ df df', "correct" ∈ columns df → fix_logic_errors df = Some df' →
       Forall2 (λ r r', r' !! "correct" = coerce_correct (r !!! "correct"))
               (rows df) (rows df'))
  ∧ (∀ z, coerce_correct (VInt z) = Some (VInt (if z =? 0 then 0 else 1)))
  ∧ (∀ df out, process_data df = Some out →
       ∃ l, Forall2 (λ r r1,
                process_row r = Some r1
                ∧ ∃ z, astype_int (fillna (VInt 0) (r !!! "correct")) = Some z
                       ∧ select_row keep_cols r1 !! "correct"
                         = Some (VInt (if z =? 0 then 0 else 1)))
              (survivors df) l
            ∧ rows out = List.map (select_row keep_cols) (stable_sort sort_key l))
  ∧ (∀ df out, process_data df = Some out →
       Forall (λ r', r' !! "correct" = Some (VInt 0) ∨ r' !! "correct" = Some (VInt 1))
              (rows out))
  ∧ (∀ q, astype_int (fillna (VInt 0) (VFloat q)) = Some (float_to_int64 q))
  ∧ (∀ q, (-1 < q)%Q → (q < 1)%Q → float_to_int64 q = 0)
  ∧ correct_cell (VInt 2) = Some (VInt 1)
  ∧ correct_cell VNaN = Some (VInt 0).
Proof.
  split_and!; [| | | | |done| |done|done].
  - apply remove_missing_values_correct.
  - apply fix_logic_errors_correct.
  - apply coerce_correct_VInt.
  - intros df out (_ & _ & l & Hl & Hrows)%process_data_Some.
    exists l. split; [|done]. apply mapM_Some in Hl.
    eapply Forall2_impl; [exact Hl|]. intros r r1 Hr. split; [done|].
    by apply process_row_correct.
  - intros df out. apply process_data_Forall. intros r r1 _ _ Hr.
    destruct (process_row_correct _ _ Hr) as (z & _ & ->).
    destruct (z =? 0); [by left|by right].
  - intros q Hlo Hhi. rewrite float_to_int64_id; rewrite Qtrunc_fraction; done.
Qed.

End OutcomeFlag.

Lemma correct_is_0_or_1_after_integer_cast_witness :
  process_data (H:=decimal_text) sample_frame = Some sample_output
  ∧ Forall (λ r', r' !! "correct" = Some (VInt 0) ∨ r' !! "correct" = Some (VInt 1))
           (rows sample_output).
Proof.
  split; [exact sample_run|].
  pose proof (correct_is_0_or_1_after_integer_cast (H:=decimal_text))
    as (_ & _ & _ & _ & Hflag & _).
  exact (Hflag sample_frame sample_output sample_run).
Defined.

(** ** The response time (claim C2) *)

(** C2, as stated, fails on its lower bound: a negative response time
    goes through [normalize_response_time] unchanged. *)
Lemma negative_response_time_is_kept :
  ∃ out r, normalize_response_time (H:=decimal_text) negative_frame 3600 = Some out
           ∧ rows out = [r]
           ∧ r !! "ms_first_response" = Some (VInt (-5))
           ∧ -5 < 0.
Proof.
  eexists _, _. split_and!; [vm_compute; reflexivity|reflexivity| |done].
  vm_compute. reflexivity.
Qed.

Section ResponseTime.
Context `{PandasText}.

Lemma clamp_response_time_normalized m r r' :
  row_update "ms_first_response" (clamp_response_time m) r = Some r' →
  response_time_normalized m r r'.
Proof.
  intros (w & [Hn ->]%clamp_response_time_Some & ->)%row_update_Some.
  unfold response_time_normalized. lookups. split_and!; [done..|].
  destruct (Qcompare _ _) eqn:E; simpl.
  - apply Qle_alt. by rewrite E.
  - apply Qle_alt. by rewrite E.
  - apply Qle_refl.
Qed.

(** C2, amended.  After [normalize_response_time] every row has a numeric
    [ms_first_response] that is at most [max_seconds] (3600 by default):
    a cell no number can be read from becomes 0, a number above
    [max_seconds] becomes [max_seconds], and every other number, negative
    ones included, is left as it is.  In the output of the pipeline the
    cell is an integer at most 3600.  10000 becomes 3600 and, where
    ["abc"] does not parse, ["abc"] becomes 0. *)
Theorem response_time_at_most_max_seconds :
  (∀ df max_seconds out,
     "ms_first_response" ∈ columns df →
     normalize_response_time df max_seconds = Some out →
     Forall2 (response_time_normalized max_seconds) (rows df) (rows out))
  ∧ (∀ df out, process_data df = Some out →
       Forall (λ r, ∃ z, r !! "ms_first_response" = Some (VInt z)
                         ∧ z ≤ max_seconds_default) (rows out))
  ∧ max_seconds_default = 3600
  ∧ clamp_response_time 3600 (VInt 10000) = Some (VInt 3600)
  ∧ (parse_numeric "abc" = None →
       clamp_response_time 3600 (VStr "abc") = Some (VInt 0))
  ∧ (∀ max_seconds z, z ≤ max_seconds →
       clamp_response_time max_seconds (VInt z) = Some (VInt z)).
Proof.
  split_and!; [| |done|done| |].
  - intros df m out Hc Hn. apply normalize_response_time_rows in Hn; [|done].
    apply mapM_Some in Hn. eapply Forall2_impl; [exact Hn|].
    intros r r'. apply clamp_response_time_normalized.
  - intros df out. apply process_data_Forall.
    intros r r' _ _ (_ & _ & _ & Hm & _ & _ & _ & _ & Hsome)%process_row_cells.
    rewrite select_row_keep by by_evaluation.
    destruct (Hsome "ms_first_response") as [w Hw]; [by_evaluation|].
    rewrite Hw in Hm |- *. symmetry in Hm.
    apply ms_first_response_cell_Some in Hm as (z & -> & Hz & _). by exists z.
  - intros Habc. unfold clamp_response_time. simpl. by rewrite Habc.
  - apply clamp_response_time_le.
Qed.

End ResponseTime.

Lemma sample_normalized_run :
  normalize_response_time (H:=decimal_text) sample_frame 3600 = Some sample_normalized.
Proof. vm_compute. reflexivity. Qed.

Lemma response_time_at_most_max_seconds_witness :
  normalize_response_time (H:=decimal_text) sample_frame 3600 = Some sample_normalized
  ∧ Forall2 (response_time_normalized (H:=decimal_text) 3600)
            (rows sample_frame) (rows sample_normalized)
  ∧ clamp_response_time (H:=decimal_text) 3600 (VStr "abc") = Some (VInt 0).
Proof.
  pose proof (response_time_at_most_max_seconds (H:=decimal_text))
    as (Hstage & _ & _ & _ & Habc & _).
  split; [exact sample_normalized_run|]. split.
  - apply Hstage; [by_evaluation|exact sample_normalized_run].
  - apply Habc. reflexivity.
Defined.

(** ** The derived feature (claim C3) *)

Lemma value_eqb_zero v :
  is_numeric v = true → value_eqb v (VInt 0) = Qeq_bool (num v) 0.
Proof.
  intros Hv. unfold value_eqb.
  replace (value_cmp v (VInt 0)) with (Qcompare (num v) 0) by by destruct v.
  destruct (Qeq_bool (num v) 0) eqn:E.
  - apply Qeq_bool_iff, Qeq_alt in E. by rewrite E.
  - destruct (Qcompare (num v) 0) eqn:E'; [|done..].
    apply Qeq_alt, Qeq_bool_iff in E'. congruence.
Qed.

Lemma replace01_effective v :
  is_numeric v = true →
  is_numeric (replace01 v) = true ∧ num (replace01 v) = effective_hint_total v.
Proof.
  intros Hv. unfold replace01, effective_hint_total.
  rewrite value_eqb_zero by done. by destruct (Qeq_bool _ _).
Qed.

Lemma independence_numeric a b :
  is_numeric a = true → is_numeric b = true →
  ∃ q, independence a b = Some (VFloat q)
       ∧ (q == 1 - num a / effective_hint_total b)%Q.
Proof.
  intros Ha Hb. destruct (replace01_effective b Hb) as [Hn <-].
  unfold independence.
  replace (value_div a (replace01 b))
    with (Some (VFloat (Qred (num a / num (replace01 b)))))
    by (by destruct a, (replace01 b)).
  eexists. split; [reflexivity|].
  change (num (VFloat ?q)) with q. by rewrite !Qred_correct.
Qed.

Section DerivedFeature.
Context `{PandasText}.

(** C3.  [add_hint_independence] keeps the rows one for one and stores in
    [hint_independence] the value [1 - hint_count / effective_hint_total]
    computed from the row's own numeric [hint_count] and [hint_total],
    where the effective total is [hint_total], or 1 when [hint_total] is
    0; every other cell is left alone.  In the pipeline the two inputs are
    the repaired hint count and the hint total of a surviving row.
    [hint_count = 2], [hint_total = 4] gives 0.5 and [0], [0] gives 1. *)
Theorem hint_independence_formula :
  (∀ df out, add_hint_independence df = Some out →
     Forall2 (λ r r',
        r' !! "hint_independence"
          = independence (r !!! "hint_count") (r !!! "hint_total")
        ∧ ∀ c, c ≠ "hint_independence" → r' !! c = r !! c)
       (rows df) (rows out))
  ∧ (∀ hint_count hint_total,
       is_numeric hint_count = true → is_numeric hint_total = true →
       ∃ q, independence hint_count hint_total = Some (VFloat q)
            ∧ (q == 1 - num hint_count / effective_hint_total hint_total)%Q)
  ∧ (∀ df out, process_data df = Some out →
       Forall (λ r', ∃ r h q,
                 r ∈ rows df
                 ∧ clamp_hint (r !!! "hint_count") (r !!! "hint_total") = Some h
                 ∧ r' !! "hint_independence" = Some (VFloat q)
                 ∧ (q == 1 - num h / effective_hint_total (r !!! "hint_total"))%Q)
              (rows out))
  ∧ independence (VInt 2) (VInt 4) = Some (VFloat (1 # 2))
  ∧ independence (VInt 0) (VInt 0) = Some (VFloat 1).
Proof.
  split_and!; [| | |done..].
  - intros df out (_ & Hrows)%add_hint_independence_Some.
    apply mapM_Some in Hrows. eapply Forall2_impl; [exact Hrows|].
    intros r r' Hr. simpl in Hr. apply row_set_Some in Hr as (v & Hv & ->).
    split; [by rewrite lookup_insert_eq|].
    intros c Hc. by rewrite lookup_insert_ne.
  - apply independence_numeric.
  - intros df out. apply process_data_Forall.
    intros r r' Hr Hna (_ & _ & _ & _ & _ & _ & Hi & _ & Hsome)%process_row_cells.
    rewrite select_row_keep by by_evaluation.
    destruct (Hsome "hint_independence") as [w Hw]; [by_evaluation|].
    rewrite Hw in Hi. symmetry in Hi.
    apply hint_cells_numeric in Hi as (mask & Hgt & Na & Nb & Hi);
      [|apply (notna_all_elem _ _ _ Hna); by_evaluation..].
    destruct (independence_numeric (if mask then r !!! "hint_total" else r !!! "hint_count")
                (r !!! "hint_total")) as (q & Hq & Heq); [by destruct mask|done|].
    exists r, (if mask then r !!! "hint_total" else r !!! "hint_count"), q.
    split_and!; [done| |congruence|done].
    unfold clamp_hint. by rewrite Hgt.
Qed.

End DerivedFeature.

Lemma hint_independence_formula_witness :
  process_data (H:=decimal_text) sample_frame = Some sample_output
  ∧ Forall (λ r', ∃ r h q,
              r ∈ rows sample_frame
              ∧ clamp_hint (r !!! "hint_count") (r !!! "hint_total") = Some h
              ∧ r' !! "hint_independence" = Some (VFloat q)
              ∧ (q == 1 - num h / effective_hint_total (r !!! "hint_total"))%Q)
           (rows sample_output)
  ∧ ∃ q, independence (VInt 2) (VInt 4) = Some (VFloat q)
         ∧ (q == 1 - 2 / 4)%Q.
Proof.
  pose proof (hint_independence_formula (H:=decimal_text)) as (_ & Hf & Hp & _).
  split; [exact sample_run|]. split.
  - exact (Hp sample_frame sample_output sample_run).
  - destruct (Hf (VInt 2) (VInt 4) eq_refl eq_refl) as (q & Hq & Heq).
    exists q. split; [done|]. exact Heq.
Defined.

(** ** Stages that leave a frame as it is *)

Lemma row_set_fix c f r v : r !! c = Some v → f r = Some v → row_set c f r = Some r.
Proof. intros Hr Hf. unfold row_set. rewrite Hf. simpl. by rewrite insert_id. Qed.

Lemma row_update_fix c g r v :
  r !! c = Some v → g v = Some v → row_update c g r = Some r.
Proof.
  intros Hr Hg. apply (row_set_fix _ _ _ v); [done|].
  by rewrite (lookup_total_correct _ _ _ Hr).
Qed.

Lemma setitem_fix c f df :
  c ∈ columns df →
  Forall (λ r, ∃ v, r !! c = Some v ∧ f r = Some v) (rows df) →
  setitem c f df = Some df.
Proof.
  intros Hc Hrows. unfold setitem.
  replace (mapM (row_set c f) (rows df)) with (Some (rows df)).
  - simpl. apply has_column_true in Hc as ->. by destruct df.
  - symmetry. apply mapM_Some, Forall_Forall2_diag.
    eapply Forall_impl; [exact Hrows|]. intros r (v & ? & ?). by eapply row_set_fix.
Qed.

Lemma update_fix c g df :
  c ∈ columns df →
  Forall (λ r, ∃ v, r !! c = Some v ∧ g v = Some v) (rows df) →
  update c g df = Some df.
Proof.
  intros Hc Hrows. unfold update.
  replace (require [c] df) with (Some ()).
  - simpl. apply setitem_fix; [done|].
    eapply Forall_impl; [exact Hrows|]. intros r (v & Hr & ?). exists v.
    by rewrite (lookup_total_correct _ _ _ Hr).
  - symmetry. apply require_Some. by constructor.
Qed.

Lemma for_each_update_fix cols g df :
  Forall (λ c, c ∈ columns df) cols →
  Forall (λ r, ∀ c, c ∈ cols → ∃ v, r !! c = Some v ∧ g v = Some v) (rows df) →
  for_each cols (λ col, update col g) df = Some df.
Proof.
  induction cols as [|c cols IH]; intros Hcols Hrows; [done|].
  apply Forall_cons_1 in Hcols as [Hc Hcols]. simpl.
  rewrite update_fix; [simpl; apply IH; [done|]|done|].
  - eapply Forall_impl; [exact Hrows|]. intros r Hr c' Hc'. apply Hr. by right.
  - eapply Forall_impl; [exact Hrows|]. intros r Hr. apply Hr. by left.
Qed.

Lemma has_column_columns c df df' :
  columns df' = columns df → has_column c df' = has_column c df.
Proof. unfold has_column. by intros ->. Qed.

Lemma for_each_guarded_filter cols g df :
  for_each cols (λ col d, if has_column col d then update col g d else Some d) df
  = for_each (List.filter (λ c, has_column c df) cols) (λ col, update col g) df.
Proof.
  revert df. induction cols as [|c cols IH]; intros df; [done|]. simpl.
  destruct (has_column c df) eqn:E; simpl.
  - destruct (update c g df) as [d|] eqn:Eu; simpl; [|done].
    rewrite IH. f_equal. apply filter_ext. intros c'.
    apply has_column_columns. by eapply update_columns.
  - apply IH.
Qed.

(** ** Type coercion (claim C9) *)

Lemma str_cols_NoDup : NoDup str_cols.
Proof. by_evaluation. Qed.

Lemma int_cols_NoDup : NoDup int_cols.
Proof. by_evaluation. Qed.

Section TypeCoercion.
Context `{PandasText}.

Lemma convert_data_types_converted df df1 :
  convert_data_types df = Some df1 →
  columns df1 = columns df
  ∧ Forall (λ c, c ∈ columns df) str_cols
  ∧ Forall (converted_row (columns df)) (rows df1).
Proof.
  intros Hc. pose proof (convert_data_types_columns _ _ Hc) as Hcols.
  unfold convert_data_types in Hc.
  destruct (for_each str_cols _ df) as [d|] eqn:E; [|done].
  change (for_each int_cols
    (λ col d, if has_column col d then update col to_int d else Some d) d = Some df1) in Hc.
  rewrite for_each_guarded_filter in Hc.
  apply for_each_update_Some in E as (Hstr & Hd & Rs).
  apply for_each_update_Some in Hc as (_ & _ & Ri).
  split_and!; [done..|].
  apply mapM_Some in Rs, Ri.
  eapply Forall2_Forall_r; [exact Ri|].
  eapply Forall2_Forall_r; [exact Rs|].
  apply Forall_true. intros r rd Hs r1 Hi.
  pose proof (λ c, row_for_each_is_Some _ _ _ _ c Hi) as Hsome.
  apply row_for_each_cells in Hs as [S1 _]; [|apply str_cols_NoDup].
  apply row_for_each_cells in Hi as [I1 I2];
    [|eapply sublist_NoDup; [apply int_cols_NoDup|apply list_filter_sublist]].
  split.
  - intros c Hc. rewrite I2; [rewrite S1 by done; by eexists|].
    intros [Hi _]%list_elem_of_In%filter_In.
    by apply (Forall_elem _ _ _ str_cols_not_int_cols Hc), list_elem_of_In.
  - intros c Hc Hcol.
    assert (c ∈ List.filter (λ c, has_column c d) int_cols) as Hin.
    { apply list_elem_of_In, filter_In. split; [by apply list_elem_of_In|].
      apply has_column_true. by rewrite Hd. }
    destruct (Hsome c Hin) as [w Hw]. rewrite I1 in Hw by done.
    rewrite I1, Hw by done. apply to_int_Some in Hw as (z & -> & Hz). by exists z.
Qed.

(** A frame that is already converted is left as it is. *)
Lemma convert_data_types_fix df :
  Forall (λ c, c ∈ columns df) str_cols →
  Forall (converted_row (columns df)) (rows df) →
  convert_data_types df = Some df.
Proof.
  intros Hstr Hrows. unfold convert_data_types.
  rewrite for_each_update_fix; [| done |].
  - change (for_each int_cols
      (λ col d, if has_column col d then update col to_int d else Some d) df = Some df).
    rewrite for_each_guarded_filter. apply for_each_update_fix.
    + apply Forall_forall. intros c [_ Hc]%list_elem_of_In%filter_In.
      by apply has_column_true.
    + eapply Forall_impl; [exact Hrows|].
      intros r [_ Hint] c [Hc Hcol]%list_elem_of_In%filter_In.
      destruct (Hint c) as (z & Hz & Hrange);
        [by apply list_elem_of_In|by apply has_column_true|].
      exists (VInt z). split; [done|]. by apply to_int_VInt.
  - eapply Forall_impl; [exact Hrows|]. intros r [Hs _] c Hc.
    destruct (Hs c Hc) as [s Hr]. by exists (VStr s).
Qed.

(** C9.  [convert_data_types] is idempotent: on the frame it returns it
    returns that same frame. *)
Theorem convert_data_types_idempotent df df1 :
  convert_data_types df = Some df1 → convert_data_types df1 = Some df1.
Proof.
  intros (Hcols & Hstr & Hrows)%convert_data_types_converted.
  apply convert_data_types_fix; by rewrite Hcols.
Qed.

End TypeCoercion.

Lemma sample_converted_run :
  convert_data_types (H:=decimal_text) sample_frame = Some sample_converted.
Proof. vm_compute. reflexivity. Qed.

Lemma convert_data_types_idempotent_witness :
  convert_data_types (H:=decimal_text) sample_frame = Some sample_converted
  ∧ convert_data_types (H:=decimal_text) sample_converted = Some sample_converted.
Proof.
  split; [exact sample_converted_run|].
  exact (convert_data_types_idempotent (H:=decimal_text)
           sample_frame sample_converted sample_converted_run).
Defined.

(** ** The order check (claim C10) *)

Lemma sorted_group_is_monotonic k g text :
  key_sorted sort_key g →
  Forall (λ r, row_eqb group_key k r = true) g →
  Forall (λ r, isna (r !!! "ms_first_response") = false) g →
  Forall (λ r, is_str (r !!! "ms_first_response") = text) g →
  is_monotonic_increasing (List.map (λ r, r !!! "ms_first_response") g) = true.
Proof.
  induction 1 as [|a g Hg IH Ha]; intros Hk Hna Hkind; [done|].
  apply Forall_cons_1 in Hk as [Hka Hk]. apply Forall_cons_1 in Hna as [Hnaa Hna].
  apply Forall_cons_1 in Hkind as [Hkinda Hkind].
  specialize (IH Hk Hna Hkind).
  destruct g as [|b g]; simpl in *; [by rewrite Hnaa|].
  apply Forall_cons_1 in Ha as [Hab _]. apply Forall_cons_1 in Hk as [Hkb _].
  apply Forall_cons_1 in Hna as [Hnab _]. apply Forall_cons_1 in Hkind as [Hkindb _].
  rewrite IH, andb_true_r. unfold value_le.
  rewrite Hnaa, Hnab, Hkinda, Hkindb, eqb_reflx. simpl.
  apply negb_true_iff, key_cmp_group_sort; [done|].
  eapply row_eqb_trans; [|exact Hkb]. by rewrite row_eqb_sym.
Qed.

(** C10, as stated, fails: a group that holds a number and a text has no
    missing cell, yet it is counted, because the sort puts the number
    before the text and the monotonicity test answers False when it has
    to compare the two. *)
Lemma text_among_times_is_reported :
  Forall (λ r, isna (r !!! "ms_first_response") = false) (rows mixed_times_frame)
  ∧ check_sequential_order mixed_times_frame = Some (mixed_times_sorted, 1%nat).
Proof. split; [by repeat constructor|]. vm_compute. reflexivity. Qed.

(** C10, amended.  On a frame whose [ms_first_response] has no missing
    cell and holds only numbers, or only text, [check_sequential_order]
    counts no group at all as out of order, and the frame it returns has
    the same columns and the same rows, put in the order of (user_id,
    problem_id, ms_first_response). *)
Theorem check_sequential_order_never_fires df df_sorted issues text :
  check_sequential_order df = Some (df_sorted, issues) →
  Forall (λ r, isna (r !!! "ms_first_response") = false) (rows df) →
  Forall (λ r, is_str (r !!! "ms_first_response") = text) (rows df) →
  issues = 0%nat
  ∧ columns df_sorted = columns df
  ∧ rows df_sorted ≡ₚ rows df
  ∧ key_sorted sort_key (rows df_sorted).
Proof.
  unfold check_sequential_order.
  destruct (sort_values sort_key df) as [d|] eqn:E; simpl; [|done].
  intros [= <- <-] Hna Hkind.
  apply sort_values_Some in E as (_ & Hcols & Hrows).
  split_and!; [|done|rewrite Hrows; apply stable_sort_Permutation
              |rewrite Hrows; apply stable_sort_sorted].
  apply length_zero_iff_nil, list_filter_nil.
  unfold groupby. apply Forall_fmap, Forall_true. intros k. simpl.
  apply negb_false_iff, (sorted_group_is_monotonic k _ text).
  - do 2 apply list_filter_StronglySorted. rewrite Hrows. apply stable_sort_sorted.
  - apply Forall_list_filter_true.
  - do 2 apply Forall_list_filter. by rewrite Hrows, stable_sort_Permutation.
  - do 2 apply Forall_list_filter. by rewrite Hrows, stable_sort_Permutation.
Qed.

Lemma order_frame_run :
  check_sequential_order order_frame = Some (order_sorted, 0%nat).
Proof. vm_compute. reflexivity. Qed.

Lemma order_frame_notna :
  Forall (λ r, isna (r !!! "ms_first_response") = false) (rows order_frame).
Proof. repeat constructor. Qed.

Lemma order_frame_numbers :
  Forall (λ r, is_str (r !!! "ms_first_response") = false) (rows order_frame).
Proof. repeat constructor. Qed.

Lemma check_sequential_order_never_fires_witness :
  check_sequential_order order_frame = Some (order_sorted, 0%nat)
  ∧ rows order_sorted ≡ₚ rows order_frame
  ∧ key_sorted sort_key (rows order_sorted).
Proof.
  split; [exact order_frame_run|].
  destruct (check_sequential_order_never_fires
              order_frame order_sorted 0%nat false
              order_frame_run order_frame_notna order_frame_numbers)
    as (_ & _ & Hperm & Hsorted).
  exact (conj Hperm Hsorted).
Defined.

(** ** Duplicates (claim C7) *)

(** C7, as stated, fails: the two rows of [twins_frame] differ, so both
    survive [remove_duplicates]; [fix_logic_errors] then clamps both hint
    counts to 3 and the output holds the same row twice. *)
Lemma output_repeats_a_row :
  ∃ r1 r2 r,
    rows twins_frame = [r1; r2]
    ∧ row_eqb (columns twins_frame) r1 r2 = false
    ∧ process_data (H:=decimal_text) twins_frame = Some twins_output
    ∧ rows twins_output = [r; r].
Proof.
  eexists _, _, _. split_and!; [reflexivity|vm_compute; reflexivity
                                |vm_compute; reflexivity|reflexivity].
Qed.

Lemma StronglySorted_lookup_lt {A} (R : A → A → Prop) l i j x y :
  StronglySorted R l → (i < j)%nat → l !! i = Some x → l !! j = Some y → R x y.
Proof.
  intros Hl. revert i j. induction Hl as [|a l _ IH Ha]; intros i j Hij Hi Hj; [done|].
  destruct j as [|j]; [lia|]. destruct i as [|i]; simpl in *.
  - injection Hi as ->. apply (Forall_elem _ _ _ Ha). by eapply list_elem_of_lookup_2.
  - apply (IH i j); [lia|done..].
Qed.

(** C7, amended.  The output of [remove_duplicates] contains no two rows
    that agree on every column; it keeps the columns, it is the input
    with rows taken out and the order of the others kept, every input row
    agrees with a row that is kept, and the row kept is the first of its
    kind: a row appended to a frame is kept exactly when no row before it
    agrees with it.  (The output of the whole pipeline can repeat a row:
    the later stages can make different rows equal.) *)
Theorem remove_duplicates_leaves_distinct_rows df :
  columns (remove_duplicates df) = columns df
  ∧ (∀ i j r1 r2, (i < j)%nat →
       rows (remove_duplicates df) !! i = Some r1 →
       rows (remove_duplicates df) !! j = Some r2 →
       row_eqb (columns df) r1 r2 = false)
  ∧ rows (remove_duplicates df) `sublist_of` rows df
  ∧ (∀ r, r ∈ rows df →
       ∃ r', r' ∈ rows (remove_duplicates df) ∧ row_eqb (columns df) r' r = true)
  ∧ (∀ r, rows (remove_duplicates (mkDataFrame (columns df) (rows df ++ [r])))
          = (rows (remove_duplicates df)
             ++ (if existsb (row_eqb (columns df) r) (rows df) then [] else [r]))%list).
Proof.
  unfold remove_duplicates, drop_duplicates. simpl. split_and!.
  - done.
  - intros i j r1 r2 Hij H1 H2.
    exact (StronglySorted_lookup_lt _ _ i j r1 r2
             (drop_duplicates_rows_distinct _ _) Hij H1 H2).
  - apply drop_duplicates_rows_sublist.
  - apply drop_duplicates_rows_complete.
  - apply drop_duplicates_rows_snoc.
Qed.

Lemma remove_duplicates_leaves_distinct_rows_witness :
  ∃ r1 r2,
    rows (remove_duplicates twins_frame) !! 0%nat = Some r1
    ∧ rows (remove_duplicates twins_frame) !! 1%nat = Some r2
    ∧ row_eqb (columns twins_frame) r1 r2 = false.
Proof.
  eexists _, _. split; [reflexivity|]. split; [reflexivity|].
  apply (proj1 (proj2 (remove_duplicates_leaves_distinct_rows twins_frame)) 0%nat 1%nat);
    [lia|reflexivity..].
Defined.

(** ** Raising (claim C8) *)

Section Raising.
Context `{PandasText}.

Lemma remove_missing_values_raises df cs d r :
  dropna cs df = Some d → has_column "correct" d = true → r ∈ rows d →
  astype_int (fillna (VInt 0) (r !!! "correct")) = None →
  remove_missing_values df cs = None.
Proof.
  intros Hd Hc Hr Hcast. unfold remove_missing_values. rewrite Hd.
  cbn [mbind option_bind]. rewrite Hc. unfold update.
  destruct (require ["correct"] d); [|done]. cbn [mbind option_bind].
  unfold setitem.
  replace (mapM (row_set "correct"
             (λ r, VInt <$> astype_int (fillna (VInt 0) (r !!! "correct")))) (rows d))
    with (@None (list (gmap string value))); [done|].
  symmetry. apply mapM_None, Exists_exists. exists r. split; [done|].
  unfold row_set. by rewrite Hcast.
Qed.

(** C8 fails on the code.  A [hint_count] that is text makes
    [fix_logic_errors] raise at the comparison of line 49 (TypeError), and
    a [correct] that Python's [int] does not read makes
    [remove_missing_values] raise at the cast of line 37 (ValueError):
    [process_data] returns no frame, although [convert_data_types] would
    have turned both cells into 0 at line 101. *)
Theorem text_in_a_count_column_raises :
  process_data text_hint_frame = None
  ∧ (int_of_str "abc" = None → process_data text_correct_frame = None).
Proof.
  split; [vm_compute; reflexivity|].
  intros Habc. unfold process_data.
  rewrite (remove_missing_values_raises _ _ text_correct_frame
             (row13 "u1" "p1" (VStr "abc") (VInt 1) (VInt 10) (VInt 1) (VInt 3))).
  - done.
  - vm_compute. reflexivity.
  - vm_compute. reflexivity.
  - by left.
  - replace (row13 _ _ _ _ _ _ _ !!! "correct") with (VStr "abc")
      by (vm_compute; reflexivity).
    simpl. by rewrite Habc.
Qed.

End Raising.

Lemma text_in_a_count_column_raises_witness :
  int_of_str (PandasText:=decimal_text) "abc" = None
  ∧ process_data (H:=decimal_text) text_correct_frame = None.
Proof.
  split; [reflexivity|].
  apply (text_in_a_count_column_raises (H:=decimal_text)). reflexivity.
Defined.

(** ** Running the pipeline again (claim C6) *)


Lemma critical_columns_cases :
  Forall (λ c, c ∈ str_cols ∨ c = "hint_count" ∨ c = "hint_total") critical_columns.
Proof. by_evaluation. Qed.


Lemma sort_key_keep_cols : Forall (λ c, c ∈ keep_cols) sort_key.
Proof. by_evaluation. Qed.

Lemma with_rows_id df : with_rows df (rows df) = df.
Proof. by destruct df. Qed.

Section SecondRun.
Context `{PandasText}.

Lemma process_row_clean r r' :
  notna_all critical_columns r = true → process_row r = Some r' →
  clean_row (select_row keep_cols r').
Proof.
  intros Hna Hr.
  pose proof (process_row_cells _ _ Hr) as (S & Hc & Ha & Hm & Hh & Ht & _ & _ & Hsome).
  destruct (Hsome "correct") as [wc Hwc]; [by_evaluation|].
  rewrite Hwc in Hc. symmetry in Hc. apply correct_cell_Some in Hc as (zc & _ & ->).
  destruct (Hsome "ms_first_response") as [wm Hwm]; [by_evaluation|].
  rewrite Hwm in Hm. symmetry in Hm.
  apply ms_first_response_cell_Some in Hm as (zm & -> & Hzm & Hzm').
  unfold clean_row, converted_row. split_and!.
  - intros c Hc. rewrite select_row_lookup. by destruct (decide _).
  - intros c Hc. rewrite select_row_keep
      by exact (Forall_elem _ _ _ str_cols_keep_cols Hc).
    rewrite S by done. by eexists.
  - intros c Hc _. rewrite select_row_keep
      by exact (Forall_elem _ _ _ int_cols_keep_cols Hc).
    destruct (Hsome c (Forall_elem _ _ _ int_cols_keep_cols Hc)) as [w Hw].
    rewrite Hw. cut (∃ v, to_int v = Some w).
    { intros (v & (z & -> & Hz)%to_int_Some). by exists z. }
    unfold int_cols in Hc.
    repeat (apply elem_of_cons in Hc as [->|Hc]); try by apply elem_of_nil in Hc.
    + rewrite Hw in Ha. by eexists.
    + rewrite Hw in Hwm. injection Hwm as ->. exists (VInt zm). by apply to_int_VInt.
    + rewrite Hw in Hh. symmetry in Hh. apply bind_Some in Hh as (v & _ & Hv). by exists v.
    + rewrite Hw in Ht. by eexists.
    + rewrite Hw in Hwc. injection Hwc as ->. eexists (VInt _). apply to_int_VInt.
      by destruct (zc =? 0).
  - rewrite select_row_keep, Hwc by by_evaluation. destruct (zc =? 0); [by left|by right].
  - rewrite select_row_keep, Hwm by by_evaluation. by exists zm.
  - rewrite select_row_keep by by_evaluation. apply Hsome. by_evaluation.
Qed.

Lemma key_cmp_select by_ r1 r2 :
  Forall (λ c, c ∈ keep_cols) by_ →
  key_cmp by_ (select_row keep_cols r1) (select_row keep_cols r2) = key_cmp by_ r1 r2.
Proof.
  induction 1 as [|c by_ Hc _ IH]; simpl; [done|].
  rewrite !(lookup_total_eq _ _ c (select_row_keep keep_cols _ c Hc)).
  by rewrite IH.
Qed.

Lemma process_data_sorted df out :
  process_data df = Some out → key_sorted sort_key (rows out).
Proof.
  intros (_ & _ & l & _ & ->)%process_data_Some.
  apply (StronglySorted_fmap (select_row keep_cols)
           (λ r1 r2, key_leb sort_key r1 r2 = true)); [|apply stable_sort_sorted].
  intros r1 r2. unfold key_leb. by rewrite key_cmp_select by apply sort_key_keep_cols.
Qed.


Lemma clean_row_str r c : clean_row r → c ∈ str_cols → ∃ s, r !! c = Some (VStr s).
Proof. intros (_ & [Hs _] & _). apply Hs. Qed.

Lemma clean_row_int r c :
  clean_row r → c ∈ int_cols →
  ∃ z, r !! c = Some (VInt z) ∧ INT64_MIN ≤ z ≤ INT64_MAX.
Proof.
  intros (_ & [_ Hi] & _) Hc. apply Hi; [done|].
  exact (Forall_elem _ _ _ int_cols_keep_cols Hc).
Qed.

Lemma clean_row_notna r : clean_row r → notna_all critical_columns r = true.
Proof.
  intros Hr. apply forallb_forall. intros c Hc%list_elem_of_In.
  destruct (Forall_elem _ _ _ critical_columns_cases Hc) as [Hs|[->| ->]].
  - destruct (clean_row_str _ _ Hr Hs) as [s Hl].
    by rewrite (lookup_total_correct _ _ _ Hl).
  - destruct (clean_row_int r "hint_count" Hr) as (z & Hl & _); [by_evaluation|].
    by rewrite (lookup_total_correct _ _ _ Hl).
  - destruct (clean_row_int r "hint_total" Hr) as (z & Hl & _); [by_evaluation|].
    by rewrite (lookup_total_correct _ _ _ Hl).
Qed.

Section CleanFrame.
Context (out : DataFrame).
Hypothesis Hcols : columns out = keep_cols.
Hypothesis Hrows : Forall clean_row (rows out).










End CleanFrame.


End SecondRun.





(** * Further properties: the pipeline as a whole and stage by stage *)

(** ** The stages as row functions, both ways *)

Lemma mapM_compose_inv {A B C} (f : A → option B) (g : B → option C) l l2 :
  mapM (λ x, f x ≫= g) l = Some l2 →
  ∃ l1, mapM f l = Some l1 ∧ mapM g l1 = Some l2.
Proof.
  rewrite mapM_Some. induction 1 as [|x z l l2 Hxz _ (l1 & H1 & H2)].
  - by exists [].
  - apply bind_Some in Hxz as (y & Hy & Hz). exists (y :: l1).
    simpl. rewrite Hy, H1. simpl. by rewrite Hz, H2.
Qed.

Lemma mapM_Some_id {A} (l l' : list A) : mapM Some l = Some l' → l' = l.
Proof.
  rewrite mapM_Some. induction 1 as [|x y l l' [= ->] _ IH]; [done|]. by rewrite IH.
Qed.

Lemma setitem_intro c f df rs :
  mapM (row_set c f) (rows df) = Some rs →
  setitem c f df
  = Some {| columns := if has_column c df then columns df else (columns df ++ [c])%list;
            rows := rs |}.
Proof. intros Hrs. unfold setitem. by rewrite Hrs. Qed.

Lemma update_intro c g df rs :
  c ∈ columns df →
  mapM (row_update c g) (rows df) = Some rs →
  update c g df = Some (with_rows df rs).
Proof.
  intros Hc Hrs. unfold update.
  replace (require [c] df) with (Some ()) by (symmetry; apply require_Some; by constructor).
  cbn [mbind option_bind]. rewrite (setitem_intro _ _ _ rs) by done.
  by apply has_column_true in Hc as ->.
Qed.

Lemma for_each_update_intro cols g df rs :
  Forall (λ c, c ∈ columns df) cols →
  mapM (row_for_each cols g) (rows df) = Some rs →
  for_each cols (λ col, update col g) df = Some (with_rows df rs).
Proof.
  revert df. induction cols as [|c cols IH]; intros df Hcols Hrs.
  - simpl in *. apply mapM_Some_id in Hrs as ->. by rewrite with_rows_id.
  - apply Forall_cons_1 in Hcols as [Hc Hcols].
    change (mapM (λ r, row_update c g r ≫= row_for_each cols g) (rows df) = Some rs) in Hrs.
    apply mapM_compose_inv in Hrs as (r1 & H1 & H2).
    simpl. rewrite (update_intro _ _ _ r1) by done. cbn [mbind option_bind].
    by rewrite (IH (with_rows df r1)).
Qed.

Section StageIntro.
Context `{PandasText}.

Lemma remove_missing_values_intro df cs rs :
  Forall (λ c, c ∈ columns df) cs → "correct" ∈ columns df →
  mapM remove_missing_values_row (List.filter (notna_all cs) (rows df)) = Some rs →
  remove_missing_values df cs = Some (with_rows df rs).
Proof.
  intros Hcs Hc Hrs. unfold remove_missing_values, dropna.
  replace (require cs df) with (Some ()) by (symmetry; by apply require_Some).
  cbn [mbind option_bind].
  replace (has_column "correct" (with_rows df _)) with true
    by (symmetry; by apply has_column_true).
  by rewrite (update_intro _ _ _ rs).
Qed.

Lemma fix_logic_errors_intro df rs :
  Forall (λ c, c ∈ columns df) ["hint_count"; "hint_total"; "correct"] →
  mapM fix_logic_errors_row (rows df) = Some rs →
  fix_logic_errors df = Some (with_rows df rs).
Proof.
  intros Hcols Hrs. unfold fix_logic_errors.
  apply Forall_cons_1 in Hcols as [Hh Hcols]. apply Forall_cons_1 in Hcols as [Ht Hcols].
  apply Forall_cons_1 in Hcols as [Hc _].
  replace (require ["hint_count"; "hint_total"] df) with (Some ())
    by (symmetry; apply require_Some; by repeat constructor).
  cbn [mbind option_bind]. unfold fix_logic_errors_row in Hrs.
  apply mapM_compose_inv in Hrs as (r1 & H1 & H2).
  rewrite (setitem_intro _ _ _ r1) by done. cbn [mbind option_bind].
  apply has_column_true in Hh as ->.
  replace (has_column "correct" {| columns := columns df; rows := r1 |}) with true
    by (symmetry; by apply has_column_true).
  by rewrite (update_intro _ _ _ rs).
Qed.

Lemma normalize_response_time_intro df m rs :
  "ms_first_response" ∈ columns df →
  mapM (normalize_response_time_row m) (rows df) = Some rs →
  normalize_response_time df m = Some (with_rows df rs).
Proof.
  intros Hc Hrs. unfold normalize_response_time.
  apply has_column_true in Hc as Hc'. rewrite Hc'. by apply update_intro.
Qed.

Lemma add_hint_independence_intro df rs :
  Forall (λ c, c ∈ columns df) ["hint_count"; "hint_total"] →
  mapM add_hint_independence_row (rows df) = Some rs →
  add_hint_independence df
  = Some {| columns := if has_column "hint_independence" df then columns df
                       else (columns df ++ ["hint_independence"])%list;
            rows := rs |}.
Proof.
  intros Hcols Hrs. unfold add_hint_independence.
  replace (require ["hint_count"; "hint_total"] df) with (Some ())
    by (symmetry; by apply require_Some).
  cbn [mbind option_bind]. by apply setitem_intro.
Qed.

Lemma convert_data_types_intro df rs :
  Forall (λ c, c ∈ columns df) str_cols →
  Forall (λ c, c ∈ columns df) int_cols →
  mapM convert_data_types_row (rows df) = Some rs →
  convert_data_types df = Some (with_rows df rs).
Proof.
  intros Hstr Hint Hrs. unfold convert_data_types, convert_data_types_row in *.
  apply mapM_compose_inv in Hrs as (r1 & H1 & H2).
  rewrite (for_each_update_intro _ _ _ r1) by done.
  change (for_each int_cols
    (λ col d, if has_column col d then update col to_int d else Some d)
    (with_rows df r1) = Some (with_rows df rs)).
  rewrite for_each_guarded by done.
  by rewrite (for_each_update_intro _ _ _ rs).
Qed.

Lemma sort_values_intro by_ df :
  Forall (λ c, c ∈ columns df) by_ →
  sort_values by_ df = Some (with_rows df (stable_sort by_ (rows df))).
Proof.
  intros Hcols. unfold sort_values.
  by replace (require by_ df) with (Some ()) by (symmetry; by apply require_Some).
Qed.

Lemma select_intro cols df :
  Forall (λ c, c ∈ columns df) cols →
  select cols df
  = Some {| columns := cols; rows := List.map (select_row cols) (rows df) |}.
Proof.
  intros Hcols. unfold select.
  by replace (require cols df) with (Some ()) by (symmetry; by apply require_Some).
Qed.

End StageIntro.

Lemma critical_columns_cols13 : Forall (λ c, c ∈ cols13) critical_columns.
Proof. by_evaluation. Qed.

Lemma str_cols_cols13 : Forall (λ c, c ∈ cols13) str_cols.
Proof. by_evaluation. Qed.

Lemma sort_key_cols13 : Forall (λ c, c ∈ cols13) sort_key.
Proof. by_evaluation. Qed.

Lemma keep_cols_cols13 :
  Forall (λ c, c ∈ cols13 ∨ c = "hint_independence") keep_cols.
Proof. by_evaluation. Qed.

Lemma Forall_elem_trans {A} (l1 l2 l3 : list A) :
  Forall (λ c, c ∈ l2) l1 → Forall (λ c, c ∈ l3) l2 → Forall (λ c, c ∈ l3) l1.
Proof.
  intros H1 H2. eapply Forall_impl; [exact H1|]. intros c Hc. by apply (Forall_elem _ _ _ H2).
Qed.

Section Factorisation.
Context `{PandasText}.

Lemma process_data_intro df l :
  Forall (λ c, c ∈ columns df) cols13 →
  mapM process_row (survivors df) = Some l →
  process_data df
  = Some {| columns := keep_cols;
            rows := List.map (select_row keep_cols) (stable_sort sort_key l) |}.
Proof.
  intros Hcols Hl. unfold process_row in Hl.
  apply mapM_compose_inv in Hl as (r1 & H1 & Hl).
  apply mapM_compose_inv in Hl as (r2 & H2 & Hl).
  apply mapM_compose_inv in Hl as (r3 & H3 & Hl).
  apply mapM_compose_inv in Hl as (r4 & H4 & H5).
  assert (∀ cs, Forall (λ c, c ∈ cols13) cs → Forall (λ c, c ∈ columns df) cs) as Hsub.
  { intros cs Hcs. by eapply Forall_elem_trans. }
  unfold process_data, remove_duplicates, drop_duplicates.
  rewrite (remove_missing_values_intro _ _ r1);
    [|apply Hsub, critical_columns_cols13
     |apply (Forall_elem _ _ _ Hcols); by_evaluation|exact H1].
  cbn [mbind option_bind].
  rewrite (fix_logic_errors_intro _ r2); [|apply Hsub; by_evaluation|exact H2].
  cbn [mbind option_bind].
  rewrite (normalize_response_time_intro _ _ r3);
    [|apply (Forall_elem _ _ _ Hcols); by_evaluation|exact H3].
  cbn [mbind option_bind].
  rewrite (add_hint_independence_intro _ r4); [|apply Hsub; by_evaluation|exact H4].
  cbn [mbind option_bind].
  set (cols4 := if has_column "hint_independence" _ then _ else _).
  assert (∀ c, c ∈ columns df → c ∈ cols4) as Hcols4.
  { intros c Hc. unfold cols4. destruct (has_column _ _); simpl; [done|].
    apply elem_of_app. by left. }
  assert ("hint_independence" ∈ cols4) as Hhi.
  { unfold cols4. destruct (has_column _ _) eqn:E; simpl.
    - by apply has_column_true in E.
    - apply elem_of_app. right. by left. }
  assert (∀ cs, Forall (λ c, c ∈ cols13) cs → Forall (λ c, c ∈ cols4) cs) as Hsub4.
  { intros cs Hcs. eapply Forall_impl; [exact (Hsub cs Hcs)|]. intros c. apply Hcols4. }
  rewrite (convert_data_types_intro _ l);
    [|apply Hsub4, str_cols_cols13|apply Hsub4, int_cols_cols13|exact H5].
  cbn [mbind option_bind].
  unfold check_sequential_order.
  rewrite sort_values_intro; [|apply Hsub4, sort_key_cols13].
  cbn [mbind option_bind]. rewrite select_intro; [done|].
  eapply Forall_impl; [apply keep_cols_cols13|]. intros c [Hc| ->]; [|done].
  simpl. apply Hcols4. by apply (Forall_elem _ _ _ Hcols).
Qed.

End Factorisation.

Lemma row_for_each_intro cols g r :
  NoDup cols → (∀ c, c ∈ cols → is_Some (g (r !!! c))) →
  is_Some (row_for_each cols g r).
Proof.
  intros Hnd. revert r. induction Hnd as [|c cols Hc _ IH]; intros r Hg; simpl.
  - by eexists.
  - destruct (Hg c) as [v Hv]; [by left|].
    unfold row_update, row_set. rewrite Hv. cbn [mbind option_bind].
    apply IH. intros c' Hc'. rewrite lookup_total_insert_ne by (by intros ->).
    apply Hg. by right.
Qed.

Section Acceptance.
Context `{PandasText}.

(** A row goes through the pipeline exactly when its six computed cells
    can be computed. *)
Lemma process_row_accepts r : is_Some (process_row r) ↔ row_accepted r.
Proof.
  split.
  - intros [r' Hr].
    pose proof (process_row_cells _ _ Hr)
      as (_ & Hc & Ha & Hm & Hh & Ht & Hi & _ & Hsome).
    unfold row_accepted. rewrite <-Hc, <-Ha, <-Hm, <-Hh, <-Ht, <-Hi.
    split_and!; apply Hsome; by_evaluation.
  - intros ([w Hc] & Ha & [wm Hm] & [wh Hh] & Ht & [wi Hi]).
    apply bind_Some in Hc as (v1 & Hv1 & (v2 & Hv2 & Hw)%bind_Some).
    apply bind_Some in Hm as (m & Hm & Hwm).
    apply bind_Some in Hh as (h & Hh & Hwh).
    apply bind_Some in Hi as (h' & Hh' & Hi).
    rewrite Hh in Hh'. injection Hh' as <-.
    unfold process_row, remove_missing_values_row, fix_logic_errors_row,
      normalize_response_time_row, add_hint_independence_row, row_update, row_set.
    rewrite Hv1. cbn [mbind option_bind].
    unfold clamp_hint_count. lookups. rewrite Hh. cbn [mbind option_bind].
    lookups. rewrite Hv2. cbn [mbind option_bind].
    lookups. rewrite Hm. cbn [mbind option_bind].
    unfold hint_independence. lookups. rewrite Hi. cbn [mbind option_bind].
    unfold convert_data_types_row.
    match goal with |- is_Some (row_for_each str_cols to_str ?r4 ≫= _) =>
      destruct (row_for_each_intro str_cols to_str r4 str_cols_NoDup) as [r5 Hr5];
        [by eexists|] end.
    rewrite Hr5. cbn [mbind option_bind].
    apply row_for_each_cells in Hr5 as [_ Hother]; [|apply str_cols_NoDup].
    apply row_for_each_intro; [apply int_cols_NoDup|].
    intros c Hc.
    rewrite (lookup_total_eq _ _ c
               (Hother c (Forall_elem _ _ _ int_cols_not_str_cols Hc))).
    unfold int_cols in Hc.
    repeat (apply elem_of_cons in Hc as [->|Hc]); try by apply elem_of_nil in Hc.
    all: lookups;
      first [assumption | rewrite Hwm; by eexists | rewrite Hwh; by eexists
            | rewrite Hw; by eexists].
Qed.

End Acceptance.

(** ** When the pipeline returns *)

Lemma Forall_of_sublist {A} (P : A → Prop) (l1 l2 : list A) :
  l1 `sublist_of` l2 → Forall P l2 → Forall P l1.
Proof.
  intros Hsub Hl. apply Forall_forall. intros x Hx.
  apply (Forall_elem _ _ _ Hl). by apply (sublist_subseteq _ _ Hsub).
Qed.

Lemma survivors_sublist df : survivors df `sublist_of` rows df.
Proof.
  unfold survivors. etransitivity; [apply list_filter_sublist|].
  apply drop_duplicates_rows_sublist.
Qed.

Section Returns.
Context `{PandasText}.

Lemma process_data_accepts df :
  Forall (λ c, c ∈ columns df) cols13 → Forall row_accepted (survivors df) →
  is_Some (process_data df).
Proof.
  intros Hcols Hrows.
  assert (is_Some (mapM process_row (survivors df))) as [l Hl].
  { apply mapM_is_Some. eapply Forall_impl; [exact Hrows|].
    intros r. apply process_row_accepts. }
  rewrite (process_data_intro df l) by done. by eexists.
Qed.

(** X3.  A frame that lacks one of the thirteen input columns makes
    [process_data] raise, also when the column is one that
    [normalize_response_time] and [convert_data_types] would skip. *)
Theorem process_data_needs_every_input_column df c :
  c ∈ cols13 → c ∉ columns df → process_data df = None.
Proof.
  intros Hc Hnc. destruct (process_data df) as [out|] eqn:E; [|done].
  apply process_data_Some in E as (Hcols & _).
  by apply (Forall_elem _ _ _ Hcols) in Hc.
Qed.

(** X4.  When every row misses a critical cell (in particular when there is no
    row), [process_data] returns the frame with the fourteen output
    columns and no row, whatever the other cells hold. *)
Theorem process_data_without_survivors df :
  Forall (λ c, c ∈ columns df) cols13 →
  Forall (λ r, notna_all critical_columns r = false) (rows df) →
  process_data df = Some (mkDataFrame keep_cols []).
Proof.
  intros Hcols Hrows.
  assert (survivors df = []) as Hs.
  { unfold survivors. apply list_filter_nil.
    eapply Forall_of_sublist; [apply drop_duplicates_rows_sublist|exact Hrows]. }
  rewrite (process_data_intro df []); [done..|]. by rewrite Hs.
Qed.

Lemma integer_row_accepted r : integer_row r → row_accepted r.
Proof.
  intros (Hc & (a & Ea & Ha) & (m & Em & Hm) & (x & Ex & Hx) & (y & Ey & Hy)).
  unfold row_accepted. rewrite Ea, Em, Ex, Ey.
  assert (∃ h, clamp_hint (VInt x) (VInt y) = Some (VInt h)
               ∧ INT64_MIN ≤ h ≤ INT64_MAX) as (h & Hh & Hhr).
  { unfold clamp_hint. rewrite value_gt_numeric by done. cbn [mbind option_bind].
    destruct (is_Gt _); by eexists. }
  split_and!.
  - assert (∃ z, astype_int (fillna (VInt 0) (r !!! "correct")) = Some z) as [z Hz].
    { destruct Hc as [->|(z & -> & Hz)]; [by exists 0|].
      exists z. by apply int64_id. }
    exists (VInt (if z =? 0 then 0 else 1)). apply correct_cell_Some. by exists z.
  - rewrite to_int_VInt by done. by eexists.
  - unfold ms_first_response_cell.
    destruct (clamp_response_time max_seconds_default (VInt m)) as [w|] eqn:E.
    + cbn [mbind option_bind].
      apply clamp_response_time_Some in E as [_ ->]. cbv zeta.
      change (fillna (VInt 0) (to_numeric (VInt m))) with (VInt m).
      destruct (is_Gt _); by rewrite to_int_VInt.
    + unfold clamp_response_time in E. by rewrite value_gt_numeric in E.
  - unfold hint_count_cell. rewrite Hh. cbn [mbind option_bind].
    by rewrite to_int_VInt.
  - rewrite to_int_VInt by done. by eexists.
  - unfold hint_independence_cell. rewrite Hh. cbn [mbind option_bind].
    destruct (independence_numeric (VInt h) (VInt y)) as (q & -> & _); by eauto.
Qed.

(** X5.  On a frame with the thirteen input columns whose count and flag cells
    are int64 integers (a missing flag allowed), [process_data] returns a
    frame. *)
Theorem process_data_returns_on_integer_cells df :
  Forall (λ c, c ∈ columns df) cols13 →
  Forall integer_row (rows df) →
  is_Some (process_data df).
Proof.
  intros Hcols Hrows. apply process_data_accepts; [done|].
  eapply Forall_impl; [|apply integer_row_accepted].
  eapply Forall_of_sublist; [apply survivors_sublist|done].
Qed.

End Returns.

(** ** What every output row looks like *)

Section OutputInvariants.
Context `{PandasText}.

(** X6.  Every row of the output comes from an input row without a missing
    critical cell: its identifiers are the strings of that row's
    identifiers, its five count and flag cells are int64 integers, and it
    has no missing critical cell itself. *)
Theorem output_rows_are_typed_and_complete df out :
  process_data df = Some out →
  Forall (λ r', ∃ r,
            r ∈ rows df
            ∧ notna_all critical_columns r = true
            ∧ (∀ c, c ∈ str_cols → r' !! c = Some (VStr (astype_str (r !!! c))))
            ∧ (∀ c, c ∈ int_cols →
                 ∃ z, r' !! c = Some (VInt z) ∧ INT64_MIN ≤ z ≤ INT64_MAX)
            ∧ notna_all critical_columns r' = true)
         (rows out).
Proof.
  apply process_data_Forall. intros r r' Hr Hna Hrow.
  pose proof (process_row_clean _ _ Hna Hrow) as Hclean.
  pose proof (process_row_cells _ _ Hrow) as (S & _).
  exists r. split_and!; [done..| | |].
  - intros c Hc. rewrite select_row_keep
      by exact (Forall_elem _ _ _ str_cols_keep_cols Hc). by apply S.
  - intros c Hc. by apply clean_row_int.
  - by apply clean_row_notna.
Qed.

(** X7.  The rows of the output are in the order of the sort key (user_id,
    problem_id, ms_first_response), the identifiers compared as strings:
    the order [check_sequential_order] leaves is never undone. *)
Theorem output_is_sorted_by_the_sort_key df out i j r1 r2 :
  process_data df = Some out →
  (i < j)%nat → rows out !! i = Some r1 → rows out !! j = Some r2 →
  key_leb sort_key r1 r2 = true.
Proof.
  intros Hout Hij H1 H2.
  exact (StronglySorted_lookup_lt _ _ i j r1 r2 (process_data_sorted _ _ Hout) Hij H1 H2).
Qed.

End OutputInvariants.

(** ** The range of the derived feature *)

Lemma Qdiv_self q : ¬ (q == 0)%Q → (q / q == 1)%Q.
Proof. intros Hq. unfold Qdiv. by apply Qmult_inv_r. Qed.

Lemma effective_hint_total_nonzero v : ¬ (effective_hint_total v == 0)%Q.
Proof.
  unfold effective_hint_total. destruct (Qeq_bool (num v) 0) eqn:E.
  - done.
  - intros Hz%Qeq_bool_iff. congruence.
Qed.

Lemma effective_hint_total_pos v :
  (0 <= num v)%Q → (0 < effective_hint_total v)%Q.
Proof.
  intros Hv. unfold effective_hint_total. destruct (Qeq_bool (num v) 0) eqn:E; [done|].
  apply Qle_lteq in Hv as [Hv|Hv]; [done|].
  symmetry in Hv. apply Qeq_bool_iff in Hv. congruence.
Qed.

(** Between 0 and the total, the feature is between 0 and 1. *)
Lemma independence_in_unit_interval a b q :
  is_numeric a = true → is_numeric b = true →
  (0 <= num a)%Q → (num a <= num b)%Q →
  independence a b = Some (VFloat q) → (0 <= q <= 1)%Q.
Proof.
  intros Na Nb Ha Hab Hq.
  destruct (independence_numeric a b Na Nb) as (q' & Hq' & Heq).
  rewrite Hq in Hq'. injection Hq' as <-.
  assert (0 < effective_hint_total b)%Q as Hpos
    by (apply effective_hint_total_pos; by eapply Qle_trans).
  assert (num a <= effective_hint_total b)%Q as Hle.
  { unfold effective_hint_total. destruct (Qeq_bool (num b) 0) eqn:E; [|done].
    apply Qeq_bool_iff in E. rewrite E in Hab. by eapply Qle_trans. }
  assert (0 <= num a / effective_hint_total b)%Q as H0.
  { apply Qle_shift_div_l; [done|]. by rewrite Qmult_0_l. }
  assert (num a / effective_hint_total b <= 1)%Q as H1.
  { apply Qle_shift_div_r; [done|]. by rewrite Qmult_1_l. }
  rewrite Heq. split.
  - apply (Qplus_le_r _ _ (num a / effective_hint_total b)). ring_simplify. done.
  - apply (Qplus_le_r _ _ (num a / effective_hint_total b - 1)). ring_simplify. done.
Qed.

Lemma hint_independence_cell_in_unit_interval a b vi :
  isna a = false → isna b = false → (0 <= num a)%Q →
  hint_independence_cell a b = Some vi →
  ∃ q, vi = VFloat q ∧ (0 <= q <= 1)%Q.
Proof.
  intros Ha Hb Hpos (mask & Hgt & Na & Nb & Hi)%hint_cells_numeric; [|done..].
  destruct mask.
  - destruct (independence_numeric b b Nb Nb) as (q & Hq & Heq).
    rewrite Hq in Hi. injection Hi as <-. exists q. split; [done|].
    destruct (Qlt_le_dec (num b) 0) as [Hneg|Hnn].
    + assert (effective_hint_total b = num b) as Heff.
      { unfold effective_hint_total. destruct (Qeq_bool (num b) 0) eqn:E; [|done].
        apply Qeq_bool_iff in E. rewrite E in Hneg. by apply Qlt_irrefl in Hneg. }
      rewrite Heff in Heq.
      assert (q == 0)%Q as ->; [|done].
      rewrite Heq, Qdiv_self; [ring|]. intros E. rewrite E in Hneg.
      by apply Qlt_irrefl in Hneg.
    + eapply (independence_in_unit_interval b b); try done. apply Qle_refl.
  - destruct (independence_numeric a b Na Nb) as (q & Hq & Heq).
    rewrite Hq in Hi. injection Hi as <-. exists q. split; [done|].
    eapply (independence_in_unit_interval a b); try done.
    by apply value_gt_false_le.
Qed.

Section FeatureRange.
Context `{PandasText}.

(** X8.  When no input row has a negative [hint_count], every
    [hint_independence] of the output is a number between 0 and 1. *)
Theorem output_hint_independence_in_unit_interval df out :
  process_data df = Some out →
  Forall (λ r, (0 <= num (r !!! "hint_count"))%Q) (rows df) →
  Forall (λ r', ∃ q, r' !! "hint_independence" = Some (VFloat q) ∧ (0 <= q <= 1)%Q)
         (rows out).
Proof.
  intros Hout Hpos. revert Hout.
  apply process_data_Forall. intros r r' Hr Hna Hrow.
  pose proof (process_row_cells _ _ Hrow) as (_ & _ & _ & _ & _ & _ & Hi & _ & Hsome).
  rewrite select_row_keep by by_evaluation.
  destruct (Hsome "hint_independence") as [w Hw]; [by_evaluation|].
  rewrite Hw in Hi |- *. symmetry in Hi.
  apply hint_independence_cell_in_unit_interval in Hi as (q & -> & Hq).
  - by exists q.
  - apply (notna_all_elem _ _ _ Hna). by_evaluation.
  - apply (notna_all_elem _ _ _ Hna). by_evaluation.
  - by apply (Forall_elem _ _ _ Hpos).
Qed.

End FeatureRange.

(** ** The stages, one by one *)

(** X9.  [remove_duplicates] is idempotent. *)
Theorem remove_duplicates_idempotent df :
  remove_duplicates (remove_duplicates df) = remove_duplicates df.
Proof.
  unfold remove_duplicates, drop_duplicates, with_rows. simpl. f_equal.
  apply drop_duplicates_rows_id, drop_duplicates_rows_distinct.
Qed.

Lemma value_gt_refl v : value_gt v v = Some false.
Proof.
  destruct v; cbn [value_gt]; by rewrite ?(cmp_refl value_cmp).
Qed.

Lemma clamp_hint_idem a b h : clamp_hint a b = Some h → clamp_hint h b = Some h.
Proof.
  intros (mask & Hgt & ->)%clamp_hint_Some. unfold clamp_hint. destruct mask.
  - by rewrite value_gt_refl.
  - by rewrite Hgt.
Qed.

Lemma coerce_correct_flag v w : coerce_correct v = Some w → isin01 w = true.
Proof.
  unfold coerce_correct. intros [= <-].
  destruct (isin01 v) eqn:E; simpl; [done|]. by destruct (truthy v).
Qed.

Lemma coerce_correct_idem v w : coerce_correct v = Some w → coerce_correct w = Some w.
Proof.
  intros Hw%coerce_correct_flag. unfold coerce_correct. by rewrite Hw.
Qed.

Section StageFacts.
Context `{PandasText}.


Lemma clamp_response_time_idem m v w :
  clamp_response_time m v = Some w → clamp_response_time m w = Some w.
Proof.
  intros [Hn ->]%clamp_response_time_Some. cbv zeta.
  set (x := fillna (VInt 0) (to_numeric v)) in *.
  destruct (is_Gt (Qcompare (num x) (inject_Z m))) eqn:E.
  - by apply clamp_response_time_le.
  - unfold clamp_response_time. rewrite to_numeric_numeric by done.
    replace (fillna (VInt 0) x) with x by (by destruct x).
    rewrite value_gt_numeric by done. change (num (VInt m)) with (inject_Z m).
    by rewrite E.
Qed.

End StageFacts.

Lemma Forall2_and_Forall_l {A B} (R : A → B → Prop) (P : A → Prop) l k :
  Forall2 R l k → Forall P l → Forall2 (λ x y, R x y ∧ P x) l k.
Proof.
  induction 1 as [|x y l k Hxy _ IH]; intros Hl; [constructor|].
  apply Forall_cons_1 in Hl as [Hx Hl]. constructor; [done|by apply IH].
Qed.

Section CompletenessFilter.
Context `{PandasText}.

Lemma remove_missing_values_rows_inv df cs df' :
  remove_missing_values df cs = Some df' →
  Forall (λ c, c ∈ columns df) cs
  ∧ columns df' = columns df
  ∧ if has_column "correct" df
    then mapM remove_missing_values_row (List.filter (notna_all cs) (rows df))
         = Some (rows df')
    else rows df' = List.filter (notna_all cs) (rows df).
Proof.
  intros Hr. pose proof (remove_missing_values_columns _ _ _ Hr) as Hcols.
  destruct (has_column "correct" df) eqn:E.
  - apply has_column_true in E.
    pose proof (remove_missing_values_rows _ _ _ E Hr) as Hrows.
    unfold remove_missing_values in Hr.
    destruct (dropna cs df) as [d|] eqn:Ed; [|done].
    by apply dropna_Some in Ed as (? & _).
  - unfold remove_missing_values in Hr.
    destruct (dropna cs df) as [d|] eqn:Ed; [|done].
    apply dropna_Some in Ed as (? & Hd & Hrows). cbn [mbind option_bind] in Hr.
    rewrite (has_column_columns _ _ _ Hd), E in Hr. injection Hr as <-. done.
Qed.

Lemma remove_missing_values_rows_shape df cs df' :
  remove_missing_values df cs = Some df' →
  Forall2 (λ r r', ∀ c, c ≠ "correct" → r' !! c = r !! c)
          (List.filter (notna_all cs) (rows df)) (rows df')
  ∧ Forall (λ r', notna_all cs r' = true) (rows df')
  ∧ ("correct" ∈ columns df →
       Forall (λ r', ∃ z, r' !! "correct" = Some (VInt z) ∧ INT64_MIN ≤ z ≤ INT64_MAX)
              (rows df')).
Proof.
  intros (_ & Hcols & Hrows)%remove_missing_values_rows_inv.
  destruct (has_column "correct" df) eqn:E.
  - apply mapM_Some in Hrows.
    assert (Forall2 (λ r r', notna_all cs r = true
                             ∧ ∃ z, INT64_MIN ≤ z ≤ INT64_MAX ∧ r' = <["correct" := VInt z]> r)
              (List.filter (notna_all cs) (rows df)) (rows df')) as Hrel.
    { eapply Forall2_impl.
      - apply Forall2_and_Forall_l; [exact Hrows|apply Forall_list_filter_true].
      - intros r r' [Hr Hna]. split; [done|]. simpl in Hr.
        unfold remove_missing_values_row in Hr.
        apply row_update_Some in Hr as (v & (z & Hz & ->)%fmap_Some & ->).
        exists z. split; [|done].
        destruct (fillna (VInt 0) (r !!! "correct")) as [x|q|s|]; simpl in Hz; try done.
        + by apply int64_Some in Hz as [-> ?].
        + injection Hz as <-. apply float_to_int64_range.
        + apply bind_Some in Hz as (y & _ & Hy). by apply int64_Some in Hy as [-> ?]. }
    split_and!.
    + eapply Forall2_impl; [exact Hrel|]. intros r r' (_ & z & _ & ->) c Hc.
      by rewrite lookup_insert_ne.
    + eapply Forall2_Forall_r; [exact Hrel|]. apply Forall_true.
      intros r r' (Hna & z & _ & ->). apply forallb_forall. intros c Hc%list_elem_of_In.
      destruct (decide (c = "correct")) as [->|Hne]; [by rewrite lookup_total_insert_eq|].
      rewrite lookup_total_insert_ne by done. apply negb_true_iff.
      by apply (notna_all_elem _ _ _ Hna).
    + intros _. eapply Forall2_Forall_r; [exact Hrel|]. apply Forall_true.
      intros r r' (_ & z & Hz & ->). exists z. by rewrite lookup_insert_eq.
  - rewrite Hrows. split_and!.
    + by apply Forall_Forall2_diag, Forall_true.
    + apply Forall_list_filter_true.
    + intros Hc%has_column_true. congruence.
Qed.

(** X10.  [remove_missing_values] keeps exactly the rows without a missing cell
    in the critical columns, in their order, and changes no cell of them
    but [correct], which becomes an int64 integer; no row of the result
    has a missing critical cell. *)
Theorem remove_missing_values_keeps_the_complete_rows df cs df' :
  remove_missing_values df cs = Some df' →
  columns df' = columns df
  ∧ Forall2 (λ r r', ∀ c, c ≠ "correct" → r' !! c = r !! c)
            (List.filter (notna_all cs) (rows df)) (rows df')
  ∧ Forall (λ r', notna_all cs r' = true) (rows df')
  ∧ ("correct" ∈ columns df →
       Forall (λ r', ∃ z, r' !! "correct" = Some (VInt z) ∧ INT64_MIN ≤ z ≤ INT64_MAX)
              (rows df')).
Proof.
  intros Hr. split; [by eapply remove_missing_values_columns|].
  by apply remove_missing_values_rows_shape.
Qed.

(** X11.  [remove_missing_values] is idempotent. *)
Theorem remove_missing_values_idempotent df cs df' :
  remove_missing_values df cs = Some df' → remove_missing_values df' cs = Some df'.
Proof.
  intros Hr.
  pose proof (remove_missing_values_rows_inv _ _ _ Hr) as (Hcs & Hcols & _).
  apply remove_missing_values_rows_shape in Hr as (_ & Hna & Hcorrect).
  unfold remove_missing_values, dropna.
  replace (require cs df') with (Some ())
    by (symmetry; apply require_Some; by rewrite Hcols).
  cbn [mbind option_bind]. rewrite list_filter_id, with_rows_id by done.
  destruct (has_column "correct" df') eqn:E; [|done].
  apply has_column_true in E. apply update_fix; [done|].
  rewrite Hcols in E. eapply Forall_impl; [exact (Hcorrect E)|].
  intros r' (z & Hz & Hrange). exists (VInt z). split; [done|]. simpl.
  by rewrite int64_id.
Qed.

End CompletenessFilter.

Section LogicRepair.
Context `{PandasText}.

Lemma fix_logic_errors_rows_inv df df' :
  fix_logic_errors df = Some df' →
  Forall (λ c, c ∈ columns df) ["hint_count"; "hint_total"]
  ∧ columns df' = columns df
  ∧ Forall2 (λ r r', ∃ h,
       clamp_hint_count r = Some h
       ∧ if has_column "correct" df
         then ∃ w, coerce_correct (r !!! "correct") = Some w
                   ∧ r' = <["correct" := w]> (<["hint_count" := h]> r)
         else r' = <["hint_count" := h]> r)
      (rows df) (rows df').
Proof.
  intros Hf. pose proof (fix_logic_errors_columns _ _ Hf) as Hcols.
  unfold fix_logic_errors in Hf. apply require_bind in Hf as [Hreq Hf].
  split_and!; [done..|].
  destruct (setitem _ _ df) as [d|] eqn:E; simpl in Hf; [|done].
  apply setitem_Some in E as [Hd Hrows]. apply mapM_Some in Hrows.
  apply Forall_cons_1 in Hreq as [Hh _]. apply has_column_true in Hh. rewrite Hh in Hd.
  rewrite (has_column_columns _ _ _ Hd) in Hf.
  destruct (has_column "correct" df).
  - apply update_Some in Hf as (_ & _ & Hu). apply mapM_Some in Hu.
    eapply Forall2_trans; [|exact Hrows|exact Hu].
    intros r r1 r' Hr Hr'. simpl in Hr, Hr'.
    apply row_set_Some in Hr as (h & Hh' & ->).
    apply row_update_Some in Hr' as (w & Hw & ->).
    exists h. split; [done|]. exists w. split; [|done]. by lookups_in Hw.
  - injection Hf as <-. eapply Forall2_impl; [exact Hrows|].
    intros r r' Hr. simpl in Hr. apply row_set_Some in Hr as (h & Hh' & ->).
    by exists h.
Qed.

(** X12.  [fix_logic_errors] keeps the rows one for one and touches no cell
    but [hint_count] and [correct].  Where the frame has a [correct]
    column it leaves 0 or 1 in it for any cell whatsoever: the cell
    itself when it is 0 or 1, else 1 when the cell is truthy and 0 when
    it is not; on its own it turns a missing [correct] into 1. *)
Theorem fix_logic_errors_touches_two_columns df df' :
  fix_logic_errors df = Some df' →
  columns df' = columns df
  ∧ Forall2 (λ r r',
       (∀ c, c ≠ "hint_count" → c ≠ "correct" → r' !! c = r !! c)
       ∧ ("correct" ∈ columns df →
            coerce_correct (r !!! "correct") = Some (r' !!! "correct")
            ∧ isin01 (r' !!! "correct") = true)
       ∧ ("correct" ∉ columns df → r' !! "correct" = r !! "correct"))
      (rows df) (rows df')
  ∧ coerce_correct VNaN = Some (VInt 1).
Proof.
  intros (_ & Hcols & Hrows)%fix_logic_errors_rows_inv. split_and!; [done| |done].
  eapply Forall2_impl; [exact Hrows|]. intros r r' (h & _ & Hr').
  destruct (has_column "correct" df) eqn:E.
  - destruct Hr' as (w & Hw & ->). split_and!.
    + intros c H1 H2. by rewrite !lookup_insert_ne.
    + intros _. rewrite lookup_total_insert_eq. split; [done|].
      by eapply coerce_correct_flag.
    + intros Hc. by apply has_column_true in E.
  - subst r'. split_and!.
    + intros c H1 _. by rewrite lookup_insert_ne.
    + intros Hc%has_column_true. congruence.
    + intros _. by rewrite lookup_insert_ne.
Qed.

(** X13.  [fix_logic_errors] is idempotent. *)
Theorem fix_logic_errors_idempotent df df' :
  fix_logic_errors df = Some df' → fix_logic_errors df' = Some df'.
Proof.
  intros (Hreq & Hcols & Hrows)%fix_logic_errors_rows_inv.
  unfold fix_logic_errors.
  replace (require ["hint_count"; "hint_total"] df') with (Some ())
    by (symmetry; apply require_Some; by rewrite Hcols).
  cbn [mbind option_bind].
  apply Forall_cons_1 in Hreq as [Hh _].
  rewrite setitem_fix; [| by rewrite Hcols |].
  - cbn [mbind option_bind]. rewrite (has_column_columns _ _ _ Hcols).
    destruct (has_column "correct" df) eqn:E; [|done].
    apply update_fix; [rewrite Hcols; by apply has_column_true|].
    eapply Forall2_Forall_r; [exact Hrows|]. apply Forall_true.
    intros r r' (h & _ & w & Hw & ->). exists w.
    split; [by rewrite lookup_insert_eq|]. by eapply coerce_correct_idem.
  - eapply Forall2_Forall_r; [exact Hrows|]. apply Forall_true.
    intros r r' (h & Hclamp & Hr'). exists h.
    assert (clamp_hint h (r !!! "hint_total") = Some h) as Hidem
      by (by eapply clamp_hint_idem).
    destruct (has_column "correct" df).
    + destruct Hr' as (w & _ & ->). split; [by lookups|].
      unfold clamp_hint_count. by lookups.
    + subst r'. split; [by lookups|]. unfold clamp_hint_count. by lookups.
Qed.

End LogicRepair.

Section ResponseTimeStage.
Context `{PandasText}.



(** X15.  [normalize_response_time] is idempotent for a fixed bound. *)
Theorem normalize_response_time_idempotent df max_seconds df' :
  normalize_response_time df max_seconds = Some df' →
  normalize_response_time df' max_seconds = Some df'.
Proof.
  intros Hn. unfold normalize_response_time in *.
  destruct (has_column "ms_first_response" df) eqn:E.
  - apply update_Some in Hn as (Hc & Hcols & Hrows).
    rewrite (has_column_columns _ _ _ Hcols), E.
    apply update_fix; [by rewrite Hcols|].
    apply mapM_Some in Hrows. eapply Forall2_Forall_r; [exact Hrows|].
    apply Forall_true. intros r r' Hr. simpl in Hr.
    apply row_update_Some in Hr as (w & Hw & ->). exists w.
    split; [by rewrite lookup_insert_eq|]. by eapply clamp_response_time_idem.
  - injection Hn as <-. by rewrite E.
Qed.

End ResponseTimeStage.

(** ** The derived feature on its own *)

Lemma replace01_kind b :
  isna (replace01 b) = isna b ∧ is_str (replace01 b) = is_str b.
Proof.
  unfold replace01. destruct b; try done; by destruct (value_eqb _ _).
Qed.

Lemma independence_is_Some a b :
  is_Some (independence a b)
  ↔ isna a = true ∨ isna b = true ∨ (is_str a = false ∧ is_str b = false).
Proof.
  destruct (replace01_kind b) as [<- <-]. unfold independence.
  generalize (replace01 b) as b'. intros b'.
  destruct a, b'; rewrite is_Some_alt; simpl; intuition (discriminate || auto).
Qed.

Lemma independence_missing a b v :
  independence a b = Some v → (v = VNaN ↔ isna a = true ∨ isna b = true).
Proof.
  destruct (replace01_kind b) as [<- _]. unfold independence.
  generalize (replace01 b) as b'. intros b'.
  destruct a, b'; simpl; intros [= <-]; intuition (discriminate || auto).
Qed.

Section Feature.
Context `{PandasText}.

Lemma add_hint_independence_rows_inv df df' :
  add_hint_independence df = Some df' →
  Forall (λ c, c ∈ columns df) ["hint_count"; "hint_total"]
  ∧ columns df'
    = (if has_column "hint_independence" df then columns df
       else (columns df ++ ["hint_independence"])%list)
  ∧ Forall2 (λ r r', ∃ v, hint_independence r = Some v
                          ∧ r' = <["hint_independence" := v]> r)
            (rows df) (rows df').
Proof.
  unfold add_hint_independence. intros [Hreq Hs]%require_bind.
  apply setitem_Some in Hs as [Hcols Hrows]. split_and!; [done..|].
  apply mapM_Some in Hrows. eapply Forall2_impl; [exact Hrows|].
  intros r r' Hr. simpl in Hr. by apply row_set_Some in Hr.
Qed.

(** X16.  [add_hint_independence] raises exactly when one of the two hint
    columns is absent or some row holds text in one hint cell while the
    other is not missing; a row with a missing hint cell never makes it
    raise. *)
Theorem add_hint_independence_returns_iff df :
  is_Some (add_hint_independence df)
  ↔ "hint_count" ∈ columns df ∧ "hint_total" ∈ columns df
    ∧ Forall (λ r, isna (r !!! "hint_count") = true
                   ∨ isna (r !!! "hint_total") = true
                   ∨ (is_str (r !!! "hint_count") = false
                      ∧ is_str (r !!! "hint_total") = false)) (rows df).
Proof.
  split.
  - intros [df' (Hreq & _ & Hrows)%add_hint_independence_rows_inv].
    apply Forall_cons_1 in Hreq as [Hc Hreq]. apply Forall_cons_1 in Hreq as [Ht _].
    split_and!; [done..|]. eapply Forall2_Forall_l; [exact Hrows|].
    apply Forall_true. intros r r' (v & Hv & _).
    apply independence_is_Some. by exists v.
  - intros (Hc & Ht & Hrows).
    assert (is_Some (mapM add_hint_independence_row (rows df))) as [l Hl].
    { apply mapM_is_Some_2. eapply Forall_impl; [exact Hrows|].
      intros r [v Hv]%independence_is_Some.
      unfold compose, add_hint_independence_row, row_set, hint_independence.
      rewrite Hv. by eexists. }
    rewrite (add_hint_independence_intro _ l); [by eexists| |done].
    by repeat constructor.
Qed.

(** X17.  [add_hint_independence] keeps the rows one for one and changes no
    cell but [hint_independence]; the column is appended after the others
    when the frame does not have it and replaced in place when it does.
    The feature of a row with a missing hint cell is missing, and the
    feature of a row whose two hint cells are (finite) numbers is not. *)
Theorem add_hint_independence_adds_one_column df df' :
  add_hint_independence df = Some df' →
  columns df'
  = (if has_column "hint_independence" df then columns df
     else (columns df ++ ["hint_independence"])%list)
  ∧ Forall2 (λ r r',
       (∀ c, c ≠ "hint_independence" → r' !! c = r !! c)
       ∧ ∃ v, r' !! "hint_independence" = Some v
              ∧ (isna (r !!! "hint_count") = true
                 ∨ isna (r !!! "hint_total") = true → v = VNaN)
              ∧ (is_numeric (r !!! "hint_count") = true →
                 is_numeric (r !!! "hint_total") = true → isna v = false))
      (rows df) (rows df').
Proof.
  intros (_ & Hcols & Hrows)%add_hint_independence_rows_inv. split; [done|].
  eapply Forall2_impl; [exact Hrows|]. intros r r' (v & Hv & ->). split.
  - intros c Hc. by rewrite lookup_insert_ne.
  - exists v. rewrite lookup_insert_eq. split; [done|].
    apply independence_missing in Hv. split; [apply Hv|].
    intros Na Nb. destruct v; try done. exfalso.
    destruct (proj1 Hv eq_refl) as [E|E].
    + by destruct (r !!! "hint_count").
    + by destruct (r !!! "hint_total").
Qed.

(** X18.  [add_hint_independence] is idempotent. *)
Theorem add_hint_independence_idempotent df df' :
  add_hint_independence df = Some df' → add_hint_independence df' = Some df'.
Proof.
  intros (Hreq & Hcols & Hrows)%add_hint_independence_rows_inv.
  assert (∀ c, c ∈ columns df → c ∈ columns df') as Hsub.
  { intros c Hc. rewrite Hcols. destruct (has_column _ df); [done|].
    apply elem_of_app. by left. }
  assert ("hint_independence" ∈ columns df') as Hhi.
  { rewrite Hcols. destruct (has_column _ df) eqn:E.
    - by apply has_column_true in E.
    - apply elem_of_app. right. by left. }
  unfold add_hint_independence.
  replace (require ["hint_count"; "hint_total"] df') with (Some ()).
  - cbn [mbind option_bind]. apply setitem_fix; [done|].
    eapply Forall2_Forall_r; [exact Hrows|]. apply Forall_true.
    intros r r' (v & Hv & ->). exists v. split; [by rewrite lookup_insert_eq|].
    unfold hint_independence in *. by lookups.
  - symmetry. apply require_Some. eapply Forall_impl; [exact Hreq|]. apply Hsub.
Qed.

End Feature.

(** ** The order check on its own *)

Lemma is_monotonic_increasing_notna l :
  is_monotonic_increasing l = true → Forall (λ v, isna v = false) l.
Proof.
  induction l as [|a l IH]; [done|]. destruct l as [|b l].
  - simpl. intros Ha%negb_true_iff. by repeat constructor.
  - change (value_le a b && is_monotonic_increasing (b :: l) = true
            → Forall (λ v, isna v = false) (a :: b :: l)).
    intros [Hab Hl]%andb_true_iff. constructor; [|by apply IH].
    unfold value_le in Hab. by destruct (isna a).
Qed.

Lemma is_monotonic_increasing_one_kind a l :
  is_monotonic_increasing (a :: l) = true →
  Forall (λ v, is_str v = is_str a) (a :: l).
Proof.
  revert a. induction l as [|b l IH]; intros a; [by repeat constructor|].
  change (value_le a b && is_monotonic_increasing (b :: l) = true
          → Forall (λ v, is_str v = is_str a) (a :: b :: l)).
  intros [Hab Hl]%andb_true_iff. constructor; [done|].
  assert (is_str a = is_str b) as ->; [|by apply IH].
  unfold value_le in Hab. apply andb_true_iff in Hab as [Hab _].
  apply andb_true_iff in Hab as [_ Hab]. by apply eqb_prop.
Qed.

Lemma existsb_false_Forall {A} (f : A → bool) l :
  existsb f l = false → Forall (λ x, f x = false) l.
Proof.
  intros E. apply Forall_forall. intros x Hx%list_elem_of_In.
  destruct (f x) eqn:Ex; [|done].
  assert (existsb f l = true) as E'; [|congruence].
  apply existsb_exists. by exists x.
Qed.

(** In a group of the sorted frame the monotonicity test fails exactly
    on a missing cell or on text next to a number. *)
Lemma sorted_group_monotonic_iff k g :
  key_sorted sort_key g →
  Forall (λ r, row_eqb group_key k r = true) g →
  is_monotonic_increasing (List.map (λ r, r !!! "ms_first_response") g)
  = negb (existsb (λ r, isna (r !!! "ms_first_response")) g
          || (existsb (λ r, is_str (r !!! "ms_first_response")) g
              && existsb (λ r, is_numeric (r !!! "ms_first_response")) g)).
Proof.
  intros Hs Hk. destruct (existsb _ g) eqn:Ena; simpl.
  { apply not_true_is_false. intros Hm%is_monotonic_increasing_notna.
    apply existsb_exists in Ena as (r & Hr%list_elem_of_In & Hna).
    apply Forall_fmap in Hm. apply (Forall_elem _ _ _ Hm) in Hr. simpl in Hr.
    congruence. }
  apply existsb_false_Forall in Ena.
  destruct (existsb (λ r, is_str _) g) eqn:Estr; simpl.
  - destruct (existsb (λ r, is_numeric _) g) eqn:Enum; simpl.
    + apply not_true_is_false. intros Hm.
      apply existsb_exists in Estr as (r1 & Hr1%list_elem_of_In & Hs1).
      apply existsb_exists in Enum as (r2 & Hr2%list_elem_of_In & Hn2).
      destruct g as [|a g]; [by apply elem_of_nil in Hr1|].
      apply is_monotonic_increasing_one_kind in Hm.
      change (Forall (λ v, is_str v = is_str (a !!! "ms_first_response"))
                (List.map (λ r, r !!! "ms_first_response") (a :: g))) in Hm.
      apply Forall_fmap in Hm.
      pose proof (Forall_elem _ _ _ Hm Hr1) as H1.
      pose proof (Forall_elem _ _ _ Hm Hr2) as H2. simpl in H1, H2.
      rewrite <-H1, Hs1 in H2. by destruct (r2 !!! "ms_first_response").
    + apply existsb_false_Forall in Enum.
      apply (sorted_group_is_monotonic k _ true); [done..|].
      apply Forall_forall. intros r Hr.
      pose proof (Forall_elem _ _ _ Ena Hr) as H1.
      pose proof (Forall_elem _ _ _ Enum Hr) as H2. simpl in H1, H2.
      by destruct (r !!! "ms_first_response").
  - apply existsb_false_Forall in Estr.
    by apply (sorted_group_is_monotonic k _ false).
Qed.

Lemma row_eqb_key_cmp by_ r1 r2 :
  row_eqb by_ r1 r2 = true → key_cmp by_ r1 r2 = Eq.
Proof.
  induction by_ as [|c cs IH]; [done|]. unfold row_eqb. simpl.
  intros [Hc Hcs]%andb_true_iff. unfold value_eqb in Hc.
  destruct (value_cmp _ _); try done. by apply IH.
Qed.

Lemma insert_sorted_filter by_ k r l :
  List.filter (row_eqb by_ k) (insert_sorted by_ r l)
  = List.filter (row_eqb by_ k) (r :: l).
Proof.
  induction l as [|x l IH]; [done|]. simpl insert_sorted.
  destruct (key_leb by_ r x) eqn:E; [done|].
  change (List.filter (row_eqb by_ k) (x :: insert_sorted by_ r l))
    with (if row_eqb by_ k x then x :: List.filter (row_eqb by_ k) (insert_sorted by_ r l)
          else List.filter (row_eqb by_ k) (insert_sorted by_ r l)).
  rewrite IH. simpl.
  destruct (row_eqb by_ k r) eqn:Er, (row_eqb by_ k x) eqn:Ex; try done.
  exfalso. assert (row_eqb by_ r x = true) as Hrx.
  { eapply row_eqb_trans; [|exact Ex]. by rewrite row_eqb_sym. }
  apply row_eqb_key_cmp in Hrx. unfold key_leb in E. by rewrite Hrx in E.
Qed.

Lemma stable_sort_filter by_ k l :
  List.filter (row_eqb by_ k) (stable_sort by_ l) = List.filter (row_eqb by_ k) l.
Proof.
  induction l as [|r l IH]; [done|]. simpl stable_sort.
  rewrite insert_sorted_filter. simpl. by rewrite IH.
Qed.

(** X19.  [check_sequential_order] counts exactly the (user_id,
    problem_id) groups that hold a missing [ms_first_response] or hold
    both text and a number in it: after its own sort these are the only
    things that can make a group count as out of order. *)
Theorem check_sequential_order_counts_broken_groups df df_sorted issues :
  check_sequential_order df = Some (df_sorted, issues) →
  issues
  = length (List.filter
              (λ group,
                 existsb (λ r, isna (r !!! "ms_first_response")) group
                 || (existsb (λ r, is_str (r !!! "ms_first_response")) group
                     && existsb (λ r, is_numeric (r !!! "ms_first_response")) group))
              (groupby group_key (rows df_sorted))).
Proof.
  unfold check_sequential_order.
  destruct (sort_values sort_key df) as [d|] eqn:E; simpl; [|done].
  intros [= <- <-]. apply sort_values_Some in E as (_ & _ & Hrows).
  f_equal. apply filter_ext_in. intros g Hg.
  unfold groupby in Hg. apply in_map_iff in Hg as (k & <- & _).
  rewrite (sorted_group_monotonic_iff k); [by rewrite negb_involutive| |].
  - do 2 apply list_filter_StronglySorted. rewrite Hrows. apply stable_sort_sorted.
  - apply Forall_list_filter_true.
Qed.

(** X20.  The sort of [check_sequential_order] is stable: the rows that agree
    on user_id, problem_id and ms_first_response come out in the order
    they had in the input. *)
Theorem check_sequential_order_is_stable df df_sorted issues k :
  check_sequential_order df = Some (df_sorted, issues) →
  List.filter (row_eqb sort_key k) (rows df_sorted)
  = List.filter (row_eqb sort_key k) (rows df).
Proof.
  intros (_ & _ & ->)%check_sequential_order_Some%sort_values_Some.
  apply stable_sort_filter.
Qed.

(** X21.  [check_sequential_order] is idempotent: on its own result it returns
    the same frame and the same count. *)
Theorem check_sequential_order_idempotent df df_sorted issues :
  check_sequential_order df = Some (df_sorted, issues) →
  check_sequential_order df_sorted = Some (df_sorted, issues).
Proof.
  intros Hc. pose proof Hc as (Hreq & Hcols & Hrows)
    %check_sequential_order_Some%sort_values_Some.
  assert (sort_values sort_key df_sorted = Some df_sorted) as Hs.
  { rewrite sort_values_intro by (by rewrite Hcols).
    rewrite stable_sort_id; [by rewrite with_rows_id|].
    rewrite Hrows. apply stable_sort_sorted. }
  unfold check_sequential_order in *. rewrite Hs.
  destruct (sort_values sort_key df) as [d|]; simpl in *; [|done].
  by injection Hc as -> <-.
Qed.

(** ** The properties above on the sample frames *)

Lemma cols13_present : Forall (λ c, c ∈ cols13) cols13.
Proof. by_evaluation. Qed.

Lemma process_data_needs_every_input_column_witness :
  process_data (H:=decimal_text) no_timing_frame = None.
Proof.
  apply (process_data_needs_every_input_column (H:=decimal_text)
           no_timing_frame "ms_first_response"); by_evaluation.
Defined.

Lemma dropped_frame_incomplete :
  Forall (λ r, notna_all critical_columns r = false) (rows dropped_frame).
Proof. repeat constructor. Qed.

Lemma process_data_without_survivors_witness :
  process_data (H:=decimal_text) dropped_frame = Some (mkDataFrame keep_cols []).
Proof.
  exact (process_data_without_survivors (H:=decimal_text) dropped_frame
           cols13_present dropped_frame_incomplete).
Defined.

Lemma order_frame_integer : Forall integer_row (rows order_frame).
Proof.
  repeat constructor; try right; eexists; (split; [vm_compute; reflexivity|done]).
Qed.

Lemma process_data_returns_on_integer_cells_witness :
  is_Some (process_data (H:=decimal_text) order_frame).
Proof.
  exact (process_data_returns_on_integer_cells (H:=decimal_text) order_frame
           cols13_present order_frame_integer).
Defined.

Lemma output_rows_are_typed_and_complete_witness :
  process_data (H:=decimal_text) sample_frame = Some sample_output
  ∧ Forall (λ r', ∃ r,
              r ∈ rows sample_frame
              ∧ notna_all critical_columns r = true
              ∧ (∀ c, c ∈ str_cols →
                   r' !! c = Some (VStr (astype_str (H:=decimal_text) (r !!! c))))
              ∧ (∀ c, c ∈ int_cols →
                   ∃ z, r' !! c = Some (VInt z) ∧ INT64_MIN ≤ z ≤ INT64_MAX)
              ∧ notna_all critical_columns r' = true)
           (rows sample_output).
Proof.
  split; [exact sample_run|].
  exact (output_rows_are_typed_and_complete (H:=decimal_text)
           sample_frame sample_output sample_run).
Defined.

Lemma sample_output_first_row : rows sample_output !! 0%nat = Some sample_output_first.
Proof. reflexivity. Qed.

Lemma sample_output_second_row : rows sample_output !! 1%nat = Some sample_output_second.
Proof. reflexivity. Qed.

Lemma output_is_sorted_by_the_sort_key_witness :
  process_data (H:=decimal_text) sample_frame = Some sample_output
  ∧ key_leb sort_key sample_output_first sample_output_second = true.
Proof.
  split; [exact sample_run|].
  exact (output_is_sorted_by_the_sort_key (H:=decimal_text)
           sample_frame sample_output 0 1 sample_output_first sample_output_second
           sample_run (le_n 1) sample_output_first_row sample_output_second_row).
Defined.

Lemma sample_frame_hint_count :
  Forall (λ r, (0 <= num (r !!! "hint_count"))%Q) (rows sample_frame).
Proof. repeat constructor; by vm_compute. Qed.

Lemma output_hint_independence_in_unit_interval_witness :
  process_data (H:=decimal_text) sample_frame = Some sample_output
  ∧ Forall (λ r', ∃ q, r' !! "hint_independence" = Some (VFloat q) ∧ (0 <= q <= 1)%Q)
           (rows sample_output).
Proof.
  split; [exact sample_run|].
  exact (output_hint_independence_in_unit_interval (H:=decimal_text)
           sample_frame sample_output sample_run sample_frame_hint_count).
Defined.

Lemma sample_complete_run :
  remove_missing_values (H:=decimal_text) sample_frame critical_columns
  = Some sample_complete.
Proof. vm_compute. reflexivity. Qed.

Lemma remove_missing_values_keeps_the_complete_rows_witness :
  remove_missing_values (H:=decimal_text) sample_frame critical_columns
  = Some sample_complete
  ∧ columns sample_complete = columns sample_frame
  ∧ Forall (λ r', notna_all critical_columns r' = true) (rows sample_complete).
Proof.
  split; [exact sample_complete_run|].
  destruct (remove_missing_values_keeps_the_complete_rows (H:=decimal_text)
              sample_frame critical_columns sample_complete sample_complete_run)
    as (Hcols & _ & Hna & _).
  exact (conj Hcols Hna).
Defined.

Lemma remove_missing_values_idempotent_witness :
  remove_missing_values (H:=decimal_text) sample_frame critical_columns
  = Some sample_complete
  ∧ remove_missing_values (H:=decimal_text) sample_complete critical_columns
    = Some sample_complete.
Proof.
  split; [exact sample_complete_run|].
  exact (remove_missing_values_idempotent (H:=decimal_text)
           sample_frame critical_columns sample_complete sample_complete_run).
Defined.

Lemma sample_repaired_run : fix_logic_errors sample_frame = Some sample_repaired.
Proof. vm_compute. reflexivity. Qed.

Lemma fix_logic_errors_touches_two_columns_witness :
  fix_logic_errors sample_frame = Some sample_repaired
  ∧ columns sample_repaired = columns sample_frame
  ∧ coerce_correct VNaN = Some (VInt 1).
Proof.
  split; [exact sample_repaired_run|].
  destruct (fix_logic_errors_touches_two_columns
              sample_frame sample_repaired sample_repaired_run)
    as (Hcols & _ & Hnan).
  exact (conj Hcols Hnan).
Defined.

Lemma fix_logic_errors_idempotent_witness :
  fix_logic_errors sample_frame = Some sample_repaired
  ∧ fix_logic_errors sample_repaired = Some sample_repaired.
Proof.
  split; [exact sample_repaired_run|].
  exact (fix_logic_errors_idempotent sample_frame sample_repaired sample_repaired_run).
Defined.

Lemma normalize_response_time_idempotent_witness :
  normalize_response_time (H:=decimal_text) sample_frame 3600 = Some sample_normalized
  ∧ normalize_response_time (H:=decimal_text) sample_normalized 3600
    = Some sample_normalized.
Proof.
  split; [exact sample_normalized_run|].
  exact (normalize_response_time_idempotent (H:=decimal_text)
           sample_frame 3600 sample_normalized sample_normalized_run).
Defined.

Lemma sample_featured_run : add_hint_independence sample_frame = Some sample_featured.
Proof. vm_compute. reflexivity. Qed.

Lemma add_hint_independence_adds_one_column_witness :
  add_hint_independence sample_frame = Some sample_featured
  ∧ columns sample_featured = (cols13 ++ ["hint_independence"])%list.
Proof.
  split; [exact sample_featured_run|].
  exact (proj1 (add_hint_independence_adds_one_column
                  sample_frame sample_featured sample_featured_run)).
Defined.

Lemma add_hint_independence_idempotent_witness :
  add_hint_independence sample_frame = Some sample_featured
  ∧ add_hint_independence sample_featured = Some sample_featured.
Proof.
  split; [exact sample_featured_run|].
  exact (add_hint_independence_idempotent
           sample_frame sample_featured sample_featured_run).
Defined.

Lemma gap_frame_run : check_sequential_order gap_frame = Some (gap_sorted, 1%nat).
Proof. vm_compute. reflexivity. Qed.

Lemma check_sequential_order_counts_broken_groups_witness :
  check_sequential_order gap_frame = Some (gap_sorted, 1%nat)
  ∧ 1%nat
    = length (List.filter
                (λ group,
                   existsb (λ r, isna (r !!! "ms_first_response")) group
                   || (existsb (λ r, is_str (r !!! "ms_first_response")) group
                       && existsb (λ r, is_numeric (r !!! "ms_first_response")) group))
                (groupby group_key (rows gap_sorted))).
Proof.
  split; [exact gap_frame_run|].
  exact (check_sequential_order_counts_broken_groups
           gap_frame gap_sorted 1%nat gap_frame_run).
Defined.

Lemma ties_frame_run : check_sequential_order ties_frame = Some (ties_sorted, 0%nat).
Proof. vm_compute. reflexivity. Qed.

Lemma ties_frame_tie :
  List.filter (row_eqb sort_key tie_first) (rows ties_frame) = [tie_first; tie_second].
Proof.
  unfold ties_frame, rows, List.filter.
  replace (row_eqb sort_key tie_first
             (row13 "u2" "p1" (VInt 1) (VInt 1) (VInt 30) (VInt 1) (VInt 2)))
    with false by (vm_compute; reflexivity).
  replace (row_eqb sort_key tie_first tie_first) with true by (vm_compute; reflexivity).
  replace (row_eqb sort_key tie_first tie_second) with true by (vm_compute; reflexivity).
  reflexivity.
Qed.

Lemma ties_differ : tie_first ≠ tie_second.
Proof.
  intros E. apply (f_equal (λ r : gmap string value, r !! "hint_count")) in E.
  vm_compute in E. discriminate.
Qed.

(** The two rows of [ties_frame] that agree on the sort key, and differ
    in their hint count, keep their input order behind the sort. *)
Lemma check_sequential_order_is_stable_witness :
  check_sequential_order ties_frame = Some (ties_sorted, 0%nat)
  ∧ tie_first ≠ tie_second
  ∧ List.filter (row_eqb sort_key tie_first) (rows ties_sorted)
    = [tie_first; tie_second].
Proof.
  split; [exact ties_frame_run|]. split; [exact ties_differ|].
  exact (eq_trans
           (check_sequential_order_is_stable
              ties_frame ties_sorted 0%nat tie_first ties_frame_run)
           ties_frame_tie).
Defined.

Lemma check_sequential_order_idempotent_witness :
  check_sequential_order gap_frame = Some (gap_sorted, 1%nat)
  ∧ check_sequential_order gap_sorted = Some (gap_sorted, 1%nat).
Proof.
  split; [exact gap_frame_run|].
  exact (check_sequential_order_idempotent gap_frame gap_sorted 1%nat gap_frame_run).
Defined.
